(** * DocInsights: code execution and artifact discovery

    A shallow embedding of
    - [utils/code_executor.py]: [_clean_code_for_execution] and
      [execute_python_code];
    - [agents/report_agent.py]: [ReportAgent._extract_image_paths];
    together with the parts of the Python library they rely on ([re],
    [str.strip], [posixpath], a small file system).

    Conventions of the model:
    - a Python [str] is a [string]; a character is read as a code point of
      the Latin-1 range, with the white-space and word classes CPython
      gives these code points;
    - paths are POSIX paths; the file system is a finite table of
      directories and regular files under normalised absolute paths;
    - the process state a call can read or write (working directory,
      [sys.path], file system, open figures, clock) is threaded explicitly
      as a [World];
    - the submitted code is any function from the state it starts in to
      the exception it raised (if any), the text it wrote to the two
      redirected streams and the state it left; it acts on the process
      through that state only, and code that does not terminate is outside
      the model;
    - an exception carries what [str()] does with it: [__str__] may
      itself raise;
    - [sys.path] is a list of strings, or [None] once some code has
      rebound it;
    - [tempfile] always succeeds, under the names the platform picks;
      [os.chdir] raises when its target is not a directory, [os.getcwd]
      when the working directory is not one; creating or removing an
      entry modifies the directory that holds it;
    - calls to [logging] are left out: they do not raise, and no statement
      below is about what the handlers write;
    - [_extract_image_paths] is modelled for a process whose working
      directory exists. *)

From Stdlib Require Import String Ascii List Bool Arith Lia QArith Sorted.
From Stdlib Require Import ZArith DecimalString.
Import ListNotations.
Close Scope Q_scope.
Open Scope string_scope.

(* ================================================================== *)
(** * Characters and strings *)

Module PyStr.

Definition nl : ascii := ascii_of_nat 10.
Definition dquote : ascii := ascii_of_nat 34.
Definition squote : ascii := ascii_of_nat 39.

(** One-character string. *)
Definition chr (c : ascii) : string := String c EmptyString.

Definition in_range (lo hi : nat) (c : ascii) : bool :=
  let n := nat_of_ascii c in Nat.leb lo n && Nat.leb n hi.

(** [str.isspace] / the class [\s] of [re] on a one-character [str]:
    TAB..CR, FS..US, SPACE, NEL and NBSP. *)
Definition isspace (c : ascii) : bool :=
  in_range 9 13 c || in_range 28 32 c || in_range 133 133 c
  || in_range 160 160 c.

(** The class [\w] of [re] on [str]: alphanumeric ([str.isalnum]) or the
    underscore. *)
Definition isword (c : ascii) : bool :=
  in_range 48 57 c || in_range 65 90 c || in_range 97 122 c
  || in_range 95 95 c
  || in_range 170 170 c || in_range 178 179 c || in_range 181 181 c
  || in_range 185 186 c || in_range 188 190 c
  || in_range 192 214 c || in_range 216 246 c || in_range 248 255 c.

(** ASCII lower-casing, as used by [re.IGNORECASE] on ASCII letters. *)
Definition lower (c : ascii) : ascii :=
  if in_range 65 90 c then ascii_of_nat (nat_of_ascii c + 32) else c.

(** [s[n:]] *)
Fixpoint drop (n : nat) (s : string) : string :=
  match n, s with
  | S n', String _ s' => drop n' s'
  | _, _ => s
  end.

(** [s[:n]] *)
Fixpoint take (n : nat) (s : string) : string :=
  match n, s with
  | S n', String c s' => String c (take n' s')
  | _, _ => EmptyString
  end.

(** [s.startswith(p)] *)
Fixpoint startswith (p s : string) : bool :=
  match p, s with
  | EmptyString, _ => true
  | String a p', String b s' => Ascii.eqb a b && startswith p' s'
  | String _ _, EmptyString => false
  end.

(** [s.endswith(p)] *)
Definition endswith (p s : string) : bool :=
  Nat.leb (String.length p) (String.length s)
  && String.eqb (drop (String.length s - String.length p) s) p.

(** [s.lstrip()] *)
Fixpoint lstrip (s : string) : string :=
  match s with
  | String c s' => if isspace c then lstrip s' else s
  | EmptyString => EmptyString
  end.

(** [s.rstrip()] *)
Fixpoint rstrip (s : string) : string :=
  match s with
  | String c s' =>
      match rstrip s' with
      | EmptyString => if isspace c then EmptyString else chr c
      | r => String c r
      end
  | EmptyString => EmptyString
  end.

(** [s.strip()] *)
Definition strip (s : string) : string := rstrip (lstrip s).

(** [needle in s] *)
Fixpoint contains (needle s : string) : bool :=
  startswith needle s
  || match s with
     | String _ s' => contains needle s'
     | EmptyString => false
     end.

End PyStr.
Import PyStr.

(* ================================================================== *)
(** * A backtracking matcher for the fragment of [re] the sources use *)

Module Re.

(** Regular expressions: the empty pattern, one character of a class,
    concatenation, ordered alternation, greedy and lazy repetition of a
    character class, and the capturing group. *)
Inductive regex : Type :=
| Eps
| Chr (p : ascii -> bool)
| Cat (r1 r2 : regex)
| Alt (r1 r2 : regex)
| StarG (p : ascii -> bool)
| StarL (p : ascii -> bool)
| Grp (r : regex).

(** [r?] (greedy) *)
Definition Opt (r : regex) : regex := Alt r Eps.
(** [[p]+] (greedy) *)
Definition PlusG (p : ascii -> bool) : regex := Cat (Chr p) (StarG p).

(** a literal string *)
Fixpoint Lit (l : string) : regex :=
  match l with
  | EmptyString => Eps
  | String c l' => Cat (Chr (Ascii.eqb c)) (Lit l')
  end.

(** a literal string under [re.IGNORECASE] *)
Definition ieq (c d : ascii) : bool := Ascii.eqb (lower c) (lower d).
Fixpoint LitI (l : string) : regex :=
  match l with
  | EmptyString => Eps
  | String c l' => Cat (Chr (ieq c)) (LitI l')
  end.

Definition any (_ : ascii) : bool := true.

Section Matcher.
Context {R : Type}.

(** Greedy repetition: consume while the class matches, then give back
    one character at a time until the continuation succeeds. *)
Fixpoint starG (p : ascii -> bool) (k : string -> option R) (s : string)
  : option R :=
  match s with
  | String c s' =>
      if p c then
        match starG p k s' with
        | Some x => Some x
        | None => k s
        end
      else k s
  | EmptyString => k s
  end.

(** Lazy repetition: try the continuation first, consume one more
    character only when it fails. *)
Fixpoint starL (p : ascii -> bool) (k : string -> option R) (s : string)
  : option R :=
  match k s with
  | Some x => Some x
  | None =>
      match s with
      | String c s' => if p c then starL p k s' else None
      | EmptyString => None
      end
  end.

(** [m r cap s k]: match [r] at the start of [s], with [cap] the current
    value of group 1, and hand the new capture and the rest of the input
    to [k]; a failure of [k] makes the matcher try its next choice. *)
Fixpoint m (r : regex) (cap : option string) (s : string)
           (k : option string -> string -> option R) : option R :=
  match r with
  | Eps => k cap s
  | Chr p =>
      match s with
      | String c s' => if p c then k cap s' else None
      | EmptyString => None
      end
  | Cat r1 r2 => m r1 cap s (fun cap' s' => m r2 cap' s' k)
  | Alt r1 r2 =>
      match m r1 cap s k with
      | Some x => Some x
      | None => m r2 cap s k
      end
  | StarG p => starG p (k cap) s
  | StarL p => starL p (k cap) s
  | Grp r' =>
      m r' cap s
        (fun _ s' => k (Some (take (String.length s - String.length s') s)) s')
  end.
End Matcher.

(** One match attempt at the start of [s]: group 1 and the rest. *)
Definition match_at (r : regex) (s : string) : option (option string * string) :=
  m r None s (fun cap rest => Some (cap, rest)).

Definition group1 (cap : option string) : string :=
  match cap with Some g => g | None => EmptyString end.

(** [re.findall] for a pattern with one group: scan left to right, [skip]
    counts the characters of the last match still to step over. *)
Fixpoint findall_from (r : regex) (skip : nat) (s : string) : list string :=
  match skip with
  | S n =>
      match s with
      | String _ s' => findall_from r n s'
      | EmptyString => []
      end
  | O =>
      match match_at r s with
      | Some (cap, rest) =>
          group1 cap ::
            match s with
            | String _ s' =>
                findall_from r (String.length s - String.length rest - 1) s'
            | EmptyString => []
            end
      | None =>
          match s with
          | String _ s' => findall_from r 0 s'
          | EmptyString => []
          end
      end
  end.

Definition findall (r : regex) (s : string) : list string :=
  findall_from r 0 s.

End Re.
Import Re.

(* ================================================================== *)
(** * [utils/code_executor.py]: the normalizer *)

(** [r"```(?:python|py)?\s*([\s\S]*?)```"] *)
Definition code_block_pattern : regex :=
  Cat (Lit "```")
   (Cat (Opt (Alt (Lit "python") (Lit "py")))
     (Cat (StarG isspace)
       (Cat (Grp (StarL any))
            (Lit "```")))).

Definition _clean_code_for_execution (code : string) : string :=
  match findall code_block_pattern code with
  | block :: _ => strip block
  | [] => code
  end.

(* ================================================================== *)
(** * [posixpath] *)

Module posixpath.

(** [os.path.isabs] *)
Definition isabs (p : string) : bool := startswith "/" p.

(** [os.path.join(a, b)] *)
Definition join (a b : string) : string :=
  if startswith "/" b then b
  else if String.eqb a "" || endswith "/" a then a ++ b
  else a ++ "/" ++ b.

(** [p.split('/')] *)
Fixpoint split_sep (p : string) : list string :=
  match p with
  | EmptyString => [EmptyString]
  | String c p' =>
      match split_sep p' with
      | h :: t => if Ascii.eqb c "/" then EmptyString :: h :: t
                  else String c h :: t
      | [] => [chr c]
      end
  end.

(** One round of the loop of [normpath]; the components kept so far are
    held last-first. *)
Definition norm_step (initial_slashes : nat) (new_comps : list string)
                     (comp : string) : list string :=
  if String.eqb comp "" || String.eqb comp "." then new_comps
  else if negb (String.eqb comp "..")
          || (Nat.eqb initial_slashes 0
              && match new_comps with [] => true | _ => false end)
          || match new_comps with
             | last :: _ => String.eqb last ".."
             | [] => false
             end
       then comp :: new_comps
       else match new_comps with
            | _ :: t => t
            | [] => []
            end.

Fixpoint slashes (n : nat) : string :=
  match n with
  | O => EmptyString
  | S n' => String "/" (slashes n')
  end.

(** [os.path.normpath] *)
Definition normpath (path : string) : string :=
  if String.eqb path "" then "."
  else
    let initial_slashes :=
      if startswith "/" path then
        if startswith "//" path && negb (startswith "///" path) then 2 else 1
      else 0 in
    let comps := split_sep path in
    let new_comps := fold_left (norm_step initial_slashes) comps [] in
    let path := String.concat "/" (rev new_comps) in
    let path := slashes initial_slashes ++ path in
    if String.eqb path "" then "." else path.

(** [os.path.abspath], with the working directory made explicit *)
Definition abspath (cwd path : string) : string :=
  normpath (if isabs path then path else join cwd path).

(** Split at the last separator: what precedes it and what follows it. *)
Fixpoint rsplit_sep (p : string) : option (string * string) :=
  match p with
  | EmptyString => None
  | String c p' =>
      match rsplit_sep p' with
      | Some (h, t) => Some (String c h, t)
      | None => if Ascii.eqb c "/" then Some (EmptyString, p') else None
      end
  end.

(** [os.path.dirname] and [os.path.basename] of a normalised absolute
    path *)
Definition dirname (p : string) : string :=
  match rsplit_sep p with
  | Some (EmptyString, _) => "/"
  | Some (h, _) => h
  | None => EmptyString
  end.
Definition basename (p : string) : string :=
  match rsplit_sep p with
  | Some (_, t) => t
  | None => p
  end.

End posixpath.
Import posixpath.

(* ================================================================== *)
(** * The process state the two functions read and write *)

(** A file-system entry: a directory or a regular file, with the time of
    its last modification in seconds. *)
Record node : Type := mkNode { is_dir : bool; mtime : Q }.

(** The file system: entries under their normalised absolute paths.
    Symbolic links are not modelled. *)
Definition FS : Type := list (string * node).

Fixpoint assoc (key : string) (fs : FS) : option node :=
  match fs with
  | [] => None
  | (k, n) :: fs' => if String.eqb k key then Some n else assoc key fs'
  end.

Fixpoint unlink (key : string) (fs : FS) : FS :=
  match fs with
  | [] => []
  | (k, n) :: fs' =>
      if String.eqb k key then unlink key fs' else (k, n) :: unlink key fs'
  end.

Definition fs_lookup (fs : FS) (p : string) : option node :=
  assoc (normpath p) fs.

(** [os.path.isdir] *)
Definition fs_isdir (fs : FS) (p : string) : bool :=
  match fs_lookup fs p with
  | Some n => is_dir n
  | None => false
  end.

(** [os.path.exists] *)
Definition fs_exists (fs : FS) (p : string) : bool :=
  match fs_lookup fs p with
  | Some _ => true
  | None => false
  end.

(** [os.path.getmtime]; [None] when it raises [OSError] *)
Definition fs_getmtime (fs : FS) (p : string) : option Q :=
  option_map mtime (fs_lookup fs p).

(** [os.listdir]; [None] when it raises [OSError] *)
Definition fs_listdir (fs : FS) (d : string) : option (list string) :=
  if fs_isdir fs d then
    Some (map (fun e => basename (fst e))
            (filter (fun e => String.eqb (dirname (fst e)) (normpath d)
                              && negb (String.eqb (basename (fst e)) ""))
                    fs))
  else None.

(** The entry under [key], if there is one, is modified at time [t]. *)
Definition touch (key : string) (t : Q) (fs : FS) : FS :=
  map (fun e => if String.eqb (fst e) key
                then (fst e, mkNode (is_dir (snd e)) t) else e) fs.

(** A new entry [n] under [p]: the directory that holds it is modified
    too. *)
Definition fs_create (fs : FS) (p : string) (n : node) (t : Q) : FS :=
  (normpath p, n)
  :: unlink (normpath p) (touch (dirname (normpath p)) t fs).

(** Creating or overwriting a regular file; [None] when [open] raises
    (the path is a directory, or its directory does not exist).  Writing
    over a file that exists changes that file only. *)
Definition fs_write (fs : FS) (p : string) (t : Q) : option FS :=
  if fs_isdir fs p then None
  else if fs_isdir fs (dirname (normpath p)) then
    if fs_exists fs p
    then Some ((normpath p, mkNode false t) :: unlink (normpath p) fs)
    else Some (fs_create fs p (mkNode false t) t)
  else None.

(** [os.remove] at time [t]; [None] when it raises [OSError].  The
    directory that held the file is modified. *)
Definition fs_remove (fs : FS) (p : string) (t : Q) : option FS :=
  match fs_lookup fs p with
  | Some n =>
      if is_dir n then None
      else Some (touch (dirname (normpath p)) t (unlink (normpath p) fs))
  | None => None
  end.

(** [sys.path]: a list of strings, or [None] once some code has rebound
    it. *)
Inductive py_path : Type :=
| PathList (l : list string)
| PathNone.

Definition is_list (p : py_path) : bool :=
  match p with
  | PathList _ => true
  | PathNone => false
  end.


Record World : Type := mkWorld {
  cwd : string;              (* os.getcwd() *)
  sys_path : py_path;        (* sys.path *)
  fs : FS;
  fignums : list nat;        (* plt.get_fignums() *)
  now : Q                    (* time.time() *)
}.

Definition set_cwd (d : string) (w : World) : World :=
  mkWorld d (sys_path w) (fs w) (fignums w) (now w).
Definition set_sys_path (l : py_path) (w : World) : World :=
  mkWorld (cwd w) l (fs w) (fignums w) (now w).
Definition set_fs (f : FS) (w : World) : World :=
  mkWorld (cwd w) (sys_path w) f (fignums w) (now w).
Definition set_fignums (l : list nat) (w : World) : World :=
  mkWorld (cwd w) (sys_path w) (fs w) l (now w).

(** A raised exception: its class name, whether the class derives from
    [Exception] (as opposed to [BaseException] only), and what [str(e)]
    does: it gives a text, or [__str__] itself raises. *)
Inductive exn : Type :=
| mkExn (class : string) (is_Exception : bool) (str : str_result)
with str_result : Type :=
| Text (text : string)
| StrRaises (e : exn).

Definition exn_class (e : exn) : string :=
  match e with mkExn class _ _ => class end.
Definition exn_is_Exception (e : exn) : bool :=
  match e with mkExn _ is_Exception _ => is_Exception end.
(** [str(e)] *)
Definition exn_str (e : exn) : str_result :=
  match e with mkExn _ _ str => str end.

Definition FileNotFoundError (p : string) : exn :=
  mkExn "FileNotFoundError" true
        (Text ("[Errno 2] No such file or directory: "
               ++ chr squote ++ p ++ chr squote)).
Definition ValueError (msg : string) : exn :=
  mkExn "ValueError" true (Text msg).
Definition RuntimeError (msg : string) : exn :=
  mkExn "RuntimeError" true (Text msg).
Definition AttributeError (msg : string) : exn :=
  mkExn "AttributeError" true (Text msg).
Definition TypeError (msg : string) : exn :=
  mkExn "TypeError" true (Text msg).
Definition SystemExit (msg : string) : exn :=
  mkExn "SystemExit" false (Text msg).
Definition KeyboardInterrupt : exn :=
  mkExn "KeyboardInterrupt" false (Text "").

(** [os.chdir] *)
Definition os_chdir (d : string) (w : World) : exn + World :=
  if fs_isdir (fs w) d then inr (set_cwd d w) else inl (FileNotFoundError d).

(** [os.getcwd]: it raises when the working directory is gone. *)
Definition os_getcwd (w : World) : exn + string :=
  if fs_isdir (fs w) (cwd w) then inr (cwd w)
  else inl (mkExn "FileNotFoundError" true
                  (Text "[Errno 2] No such file or directory")).

(** [sys.path.insert(0, d)] *)
Definition path_insert0 (d : string) (p : py_path) : exn + py_path :=
  match p with
  | PathList l => inr (PathList (d :: l))
  | PathNone =>
      inl (AttributeError "'NoneType' object has no attribute 'insert'")
  end.

(** [l.remove(x)]: drops the first occurrence *)
Fixpoint remove_first (x : string) (l : list string) : list string :=
  match l with
  | [] => []
  | y :: l' => if String.eqb x y then l' else y :: remove_first x l'
  end.

(** [x in l] *)
Definition mem (x : string) (l : list string) : bool :=
  existsb (String.eqb x) l.

(** What [d in sys.path] raises when [sys.path] is [None]. *)
Definition not_iterable : exn :=
  TypeError "argument of type 'NoneType' is not iterable".

(* ================================================================== *)
(** * [utils/code_executor.py]: [execute_python_code] *)

(** What running a compiled program did: the exception that ended it, if
    any, what it wrote to the redirected [sys.stdout] and [sys.stderr], and
    the process state it left. *)
Record run : Type := mkRun {
  raised : option exn;
  stdout : string;
  stderr : string;
  after : World
}.

Definition program : Type := World -> run.

(** The interpreter and library behaviour the function is parametric in. *)
Record Platform : Type := mkPlatform {
  (** [exec(compile(code, ..), globals_dict)], with [file_path] bound in
      [globals_dict] *)
  python : string -> option string -> program;
  (** the directory [tempfile.mkdtemp()] creates *)
  mkdtemp_name : World -> string;
  (** the file [tempfile.NamedTemporaryFile(suffix='.py')] creates *)
  mkstemp_name : World -> string;
  (** [traceback.format_exc()] for the exception being handled *)
  format_exc : exn -> string
}.

(** How a call ends: it returns a string or an exception leaves it. *)
Inductive outcome : Type :=
| Returned (result : string)
| Raises (e : exn).

(** "Combine output and error messages" *)
Definition assemble (error output : string) : string :=
  if String.eqb error "" then output
  else "Code execution error:" ++ chr nl ++ error
       ++ chr nl ++ chr nl ++ "Output (if any):" ++ chr nl ++ output.

Section Executor.
Variable P : Platform.

(** [tempfile.mkdtemp()] *)
Definition mkdtemp (w : World) : string * World :=
  let d := mkdtemp_name P w in
  (d, set_fs (fs_create (fs w) d (mkNode true (now w)) (now w)) w).

(** [with tempfile.NamedTemporaryFile(mode='w', suffix='.py',
    delete=False) as temp_file: ... temp_file.write(code)] *)
Definition write_temp_file (w : World) : string * World :=
  let f := mkstemp_name P w in
  (f, set_fs (fs_create (fs w) f (mkNode false (now w)) (now w)) w).

(** The block "Check if any plots were created": every exception in it
    is swallowed. *)
Definition save_open_figure (temp_dir output : string) (w : World)
  : string * World :=
  match fignums w with
  | [] => (output, w)
  | _ :: _ =>
      let plt_file := join temp_dir "plot.png" in
      match fs_write (fs w) plt_file (now w) with
      | Some fs' =>
          (output ++ chr nl ++ "[Plot saved to " ++ plt_file ++ "]",
           set_fignums [] (set_fs fs' w))
      | None => (output, w)
      end
  end.

(** The body of [try]: the state it leaves, [temp_file_path] if bound,
    and the exception it raised or the string it returns. *)
Definition try_body (code : string) (file_path : option string)
                    (temp_dir : string) (w1 : World)
  : World * option string * (exn + string) :=
  match os_chdir temp_dir w1 with
  | inl e => (w1, None, inl e)
  | inr w2 =>
      match path_insert0 temp_dir (sys_path w2) with
      | inl e => (w2, None, inl e)
      | inr path =>
          let w3 := set_sys_path path w2 in
          let '(temp_file_path, w4) := write_temp_file w3 in
          let r := python P code file_path w4 in
          match raised r with
          | Some e => (after r, Some temp_file_path, inl e)
          | None =>
              let output := stdout r in
              let error := stderr r in
              let '(output, w5) :=
                save_open_figure temp_dir output (after r) in
              (w5, Some temp_file_path, inr (assemble error output))
          end
      end
  end.

(** [try: os.remove(temp_file_path) except: pass] *)
Definition remove_quietly (temp_file_path : option string) (w : World)
  : World :=
  match temp_file_path with
  | Some f =>
      match fs_remove (fs w) f (now w) with
      | Some fs' => set_fs fs' w
      | None => w
      end
  | None => w
  end.

(** The clause [except Exception as e], applied to what [try] gave: an
    exception that is not an [Exception] stays pending; for one that is,
    the message for the log is formatted first, with [str(e)] in it, and an
    exception of [__str__] leaves the handler. *)
Definition handle (res : exn + string) : outcome :=
  match res with
  | inr result => Returned result
  | inl e =>
      if exn_is_Exception e then
        let tb := format_exc P e in
        match exn_str e with
        | Text text =>
            Returned ("Code execution error: " ++ text
                      ++ chr nl ++ chr nl ++ tb)
        | StrRaises e' => Raises e'
        end
      else Raises e
  end.

(** The clause [finally]: an exception of [os.chdir(cwd)] replaces the
    pending outcome and skips the rest of the clause; so does, after the
    code file is removed, an exception of [temp_dir in sys.path]. *)
Definition finally_block (cwd0 temp_dir : string)
                         (temp_file_path : option string)
                         (pending : outcome) (w2 : World)
  : outcome * World :=
  match os_chdir cwd0 w2 with
  | inl e => (Raises e, w2)
  | inr w3 =>
      let w4 := remove_quietly temp_file_path w3 in
      match sys_path w4 with
      | PathList l =>
          (pending,
           if mem temp_dir l
           then set_sys_path (PathList (remove_first temp_dir l)) w4
           else w4)
      | PathNone => (Raises not_iterable, w4)
      end
  end.

Definition execute_python_code (code : string) (file_path : option string)
                               (w : World) : outcome * World :=
  let code := _clean_code_for_execution code in
  let '(temp_dir, w1) := mkdtemp w in
  match os_getcwd w1 with
  | inl e => (Raises e, w1)
  | inr cwd0 =>
      let '(w2, temp_file_path, res) :=
        try_body code file_path temp_dir w1 in
      finally_block cwd0 temp_dir temp_file_path (handle res) w2
  end.

(** The scratch directory of a call made in state [w]. *)
Definition scratch_dir (w : World) : string := mkdtemp_name P w.

(** The code file of that call, and the state in which its submitted
    code starts: in the scratch directory, with that directory put in
    front of the search path. *)
Definition code_file_and_scope (w : World) : string * World :=
  let '(temp_dir, w1) := mkdtemp w in
  write_temp_file
    (set_sys_path
       (match path_insert0 temp_dir (sys_path w1) with
        | inr path => path
        | inl _ => sys_path w1
        end)
       (set_cwd temp_dir w1)).
Definition scope (w : World) : World := snd (code_file_and_scope w).

(** The run of the submitted code inside that call. *)
Definition code_run (code : string) (file_path : option string)
                       (w : World) : run :=
  python P (_clean_code_for_execution code) file_path (scope w).

End Executor.

(** A call made in state [w] gets as far as running the submitted code:
    the working directory exists, so that [os.getcwd()] gives it, and
    [sys.path] is a list, so that the scratch directory can be put on
    it. *)
Definition can_start (w : World) : bool :=
  fs_isdir (fs w) (cwd w) && is_list (sys_path w).

(* ================================================================== *)
(** * [agents/report_agent.py]: [_extract_image_paths] *)

(** [[\w\._/-]] *)
Definition path_char (c : ascii) : bool :=
  isword c || Ascii.eqb c "." || Ascii.eqb c "_" || Ascii.eqb c "/"
  || Ascii.eqb c "-".

(** the class of the two quote characters *)
Definition quote_char (c : ascii) : bool :=
  Ascii.eqb c squote || Ascii.eqb c dquote.

(** [([\w\._/-]+\.(?:png|jpg|jpeg|svg|pdf))] *)
Definition image_name : regex :=
  Grp (Cat (PlusG path_char)
        (Cat (LitI ".")
          (Alt (LitI "png") (Alt (LitI "jpg") (Alt (LitI "jpeg")
            (Alt (LitI "svg") (LitI "pdf"))))))).

(** The eight patterns, compiled with [re.IGNORECASE]. *)
Definition patterns : list regex :=
  [ Cat (LitI "saved ") (Cat (Opt (LitI "to ")) image_name);
    Cat (LitI "saved ") (Cat (Opt (LitI "as ")) image_name);
    Cat (LitI "saved ") image_name;
    Cat (LitI "created ") image_name;
    Cat (LitI "output ") (Cat (Opt (Alt (LitI "to ") (LitI "as "))) image_name);
    Cat (Alt (LitI "written") (LitI "generated"))
      (Cat (LitI " ") (Cat (Opt (LitI "to ")) image_name));
    Cat (LitI "plt.savefig(") (Cat (Chr quote_char) (Cat image_name (Chr quote_char)));
    Cat (LitI "fig.savefig(") (Cat (Chr quote_char) (Cat image_name (Chr quote_char))) ].

(** [file.endswith(('.png', '.jpg', '.jpeg', '.svg', '.pdf'))] *)
Definition has_image_ext (file : string) : bool :=
  endswith ".png" file || endswith ".jpg" file || endswith ".jpeg" file
  || endswith ".svg" file || endswith ".pdf" file.

(** [time.time() - file_mtime < 60] *)
Definition recent (w : World) (file_mtime : Q) : bool :=
  negb (Qle_bool 60 (now w - file_mtime)).

(** The body of the first loop for one match: the cleaned path, made
    absolute. *)
Definition resolve (w : World) (match_ : string) : string :=
  let path := strip match_ in
  if isabs path then path else abspath (cwd w) path.

(** All matches, pattern by pattern. *)
Definition text_matches (execution_result : string) : list string :=
  flat_map (fun pattern => findall pattern execution_result) patterns.

(** First pass: the resolved matches that exist. *)
Definition pattern_paths (w : World) (execution_result : string) : list string :=
  filter (fs_exists (fs w)) (map (resolve w) (text_matches execution_result)).

(** The loop over [os.listdir(current_dir)]; when [os.path.getmtime]
    raises, the loop is left and the paths appended so far are kept. *)
Fixpoint scan_dir (w : World) (current_dir : string) (files : list string)
  : list string :=
  match files with
  | [] => []
  | file :: rest =>
      if has_image_ext file then
        let file_path := join current_dir file in
        match fs_getmtime (fs w) file_path with
        | Some file_mtime =>
            if recent w file_mtime
            then file_path :: scan_dir w current_dir rest
            else scan_dir w current_dir rest
        | None => []
        end
      else scan_dir w current_dir rest
  end.

(** Second pass: recent image files of the current directory. *)
Definition recent_images (w : World) : list string :=
  let current_dir := cwd w in
  match fs_listdir (fs w) current_dir with
  | Some files => scan_dir w current_dir files
  | None => []
  end.

(** "Remove duplicates while preserving order" *)
Definition unique (image_paths : list string) : list string :=
  fold_left (fun unique_paths path =>
               if mem path unique_paths then unique_paths
               else (unique_paths ++ [path])%list)
            image_paths [].

Definition _extract_image_paths (w : World) (execution_result : string)
  : list string :=
  unique (pattern_paths w execution_result ++ recent_images w)%list.

(** The position at which [x] is first seen in [l]. *)
Fixpoint index_of (x : string) (l : list string) : nat :=
  match l with
  | [] => 0
  | y :: l' => if String.eqb x y then 0 else S (index_of x l')
  end.

(* ================================================================== *)
(** * Sample programs and states

    What CPython does for a few snippets, used to run the definitions on
    concrete inputs. *)

Module Sample.

Definition py_print_hello : string := "print('hello')".
Definition py_raise_boom : string := "raise ValueError('boom')".
Definition py_sys_exit : string :=
  "import sys" ++ chr nl ++ "sys.exit('bye')".
Definition py_warn_then_raise : string :=
  "import sys" ++ chr nl ++ "sys.stderr.write('warn')" ++ chr nl
  ++ "raise ValueError('boom')".
Definition py_warn : string :=
  "import sys" ++ chr nl ++ "sys.stderr.write('warn')" ++ chr nl
  ++ "print('done')".
Definition py_rmtree_app : string :=
  "import shutil" ++ chr nl ++ "shutil.rmtree('/app')".
Definition py_chdir_root : string :=
  "import os" ++ chr nl ++ "os.chdir('/')" ++ chr nl ++ "print('moved')".
Definition py_path_append : string :=
  "import os, sys" ++ chr nl ++ "sys.path.append(os.getcwd())".
Definition py_chart : string :=
  "open('chart.png', 'wb').close()" ++ chr nl
  ++ "print('saved to chart.png')".
Definition py_path_none : string :=
  "import sys" ++ chr nl ++ "sys.path = None" ++ chr nl ++ "print('ok')".
Definition py_bad_str : string :=
  "class Bad(Exception):" ++ chr nl
  ++ "    def __str__(self):" ++ chr nl
  ++ "        raise RuntimeError('no text')" ++ chr nl
  ++ "raise Bad()".
Definition py_path_front : string :=
  "import sys" ++ chr nl ++ "sys.path.insert(0, '/opt/lib')".

(** An instance of [Bad]. *)
Definition Bad : exn :=
  mkExn "Bad" true (StrRaises (RuntimeError "no text")).

(** [shutil.rmtree(d)]: [d] and everything below it is gone. *)
Definition rmtree (d : string) (f : FS) : FS :=
  filter (fun e => negb (String.eqb (fst e) d
                         || startswith (d ++ "/") (fst e))) f.

Definition cpython (code : string) (file_path : option string) : program :=
  fun w =>
    if String.eqb code py_print_hello then
      mkRun None ("hello" ++ chr nl) "" w
    else if String.eqb code py_raise_boom then
      mkRun (Some (ValueError "boom")) "" "" w
    else if String.eqb code py_sys_exit then
      mkRun (Some (SystemExit "bye")) "" "" w
    else if String.eqb code py_warn_then_raise then
      mkRun (Some (ValueError "boom")) "" "warn" w
    else if String.eqb code py_warn then
      mkRun None ("done" ++ chr nl) "warn" w
    else if String.eqb code py_rmtree_app then
      mkRun None "" "" (set_fs (rmtree "/app" (fs w)) w)
    else if String.eqb code py_chdir_root then
      mkRun None ("moved" ++ chr nl) "" (set_cwd "/" w)
    else if String.eqb code py_path_append then
      match sys_path w with
      | PathList l => mkRun None "" "" (set_sys_path (PathList (l ++ [cwd w])) w)
      | PathNone =>
          mkRun (Some (AttributeError
                         "'NoneType' object has no attribute 'append'"))
                "" "" w
      end
    else if String.eqb code py_path_none then
      mkRun None ("ok" ++ chr nl) "" (set_sys_path PathNone w)
    else if String.eqb code py_bad_str then
      mkRun (Some Bad) "" "" w
    else if String.eqb code py_path_front then
      match path_insert0 "/opt/lib" (sys_path w) with
      | inr path => mkRun None "" "" (set_sys_path path w)
      | inl e => mkRun (Some e) "" "" w
      end
    else if String.eqb code py_chart then
      match fs_write (fs w) (join (cwd w) "chart.png") (now w) with
      | Some fs' => mkRun None ("saved to chart.png" ++ chr nl) "" (set_fs fs' w)
      | None => mkRun (Some (FileNotFoundError "chart.png")) "" "" w
      end
    else mkRun None "" "" w.

(** The first of a few names that is not taken. *)
Definition fresh_name (candidates : list string) (w : World) : string :=
  match filter (fun n => negb (fs_exists (fs w) n)) candidates with
  | n :: _ => n
  | [] => "/tmp/tmpzzzzzzzz"
  end.

Definition platform : Platform :=
  mkPlatform cpython
    (fresh_name ["/tmp/tmpk3x9vq1a"; "/tmp/tmpw80dlm2c"; "/tmp/tmp5hs1tyq_"])
    (fresh_name ["/tmp/tmpq7wzr4e2.py"; "/tmp/tmpb1n6xo0s.py"; "/tmp/tmpy9c3ad5k.py"])
    (fun e => "Traceback (most recent call last):" ++ chr nl
              ++ exn_class e ++ ": "
              ++ match exn_str e with
                 | Text text => text
                 | StrRaises _ => "<exception str() failed>"
                 end
              ++ chr nl).

(** A process started in [/app], with [/app/main.py] in it. *)
Definition w0 : World :=
  mkWorld "/app" (PathList ["/app"; "/usr/lib/python3"])
    [("/", mkNode true 0); ("/tmp", mkNode true 0); ("/app", mkNode true 0);
     ("/app/main.py", mkNode false 0)]
    [] 1000.

(** The same process with a chart written into [/app] ten seconds ago and
    an old logo next to it. *)
Definition w_chart : World :=
  mkWorld "/app" (PathList ["/app"; "/usr/lib/python3"])
    [("/", mkNode true 0); ("/tmp", mkNode true 0); ("/app", mkNode true 0);
     ("/app/main.py", mkNode false 0); ("/app/logo.png", mkNode false 0);
     ("/app/chart.png", mkNode false 990)]
    [] 1000.

(** A process whose working directory has been removed. *)
Definition w_gone : World :=
  mkWorld "/gone" (PathList ["/usr/lib/python3"])
    [("/", mkNode true 0); ("/tmp", mkNode true 0)] [] 1000.

(** A process in which [sys.path] has been rebound to [None]. *)
Definition w_no_path : World :=
  mkWorld "/app" PathNone
    [("/", mkNode true 0); ("/tmp", mkNode true 0); ("/app", mkNode true 0)]
    [] 1000.

End Sample.

(* ================================================================== *)
(** * Fenced blocks, read without backtracking

    What [code_block_pattern] finds, written as plain string functions;
    [match_at_code_block] below proves that the matcher computes exactly
    this. *)

Definition fence : string := "```".

(** The text before the first [fence] of [s] and the text after it. *)
Fixpoint split_fence (s : string) : option (string * string) :=
  if startswith fence s then Some (EmptyString, drop 3 s)
  else match s with
       | String c s' =>
           match split_fence s' with
           | Some (b, r) => Some (String c b, r)
           | None => None
           end
       | EmptyString => None
       end.

(** The same, in the shape of a match result. *)
Definition body_of (t : string) : option (option string * string) :=
  match split_fence t with
  | Some (b, r) => Some (Some b, r)
  | None => None
  end.

(** The tag the pattern steps over right after the opening fence. *)
Definition strip_tag (s : string) : string :=
  if startswith "python" s then drop 6 s
  else if startswith "py" s then drop 2 s
  else s.

(** A block opening at the very start of [s]: its captured body and the
    text after its closing fence. *)
Definition block_at (s : string) : option (option string * string) :=
  if startswith fence s then
    body_of (lstrip (strip_tag (drop 3 s)))
  else None.

(** [s] holds a fence that is followed, later on, by another fence. *)
Definition has_block (s : string) : bool :=
  match split_fence s with
  | Some (_, r) => contains fence r
  | None => false
  end.

(** A fenced block as the specification describes it: fence, optional
    language tag, newline, body, fence. *)
Definition fenced (tag body : string) : string :=
  fence ++ tag ++ chr nl ++ body ++ fence.

(** A fence put right after [s] is the first fence of the text: [s] holds
    no fence and does not end in a backtick. *)
Definition fence_first (s : string) : bool :=
  negb (contains fence (s ++ "``")).

(** No character of [s] is white space. *)
Fixpoint no_space (s : string) : bool :=
  match s with
  | String c s' => negb (isspace c) && no_space s'
  | EmptyString => true
  end.

(* ================================================================== *)
(** * More of the Python library *)

(** [re.search]: the first position at which the pattern matches, as the
    pair of [m.start()] and [m.end()]. *)
Fixpoint search_from (r : regex) (pos : nat) (s : string)
  : option (nat * nat) :=
  match match_at r s with
  | Some (_, rest) =>
      Some (pos, pos + (String.length s - String.length rest))
  | None =>
      match s with
      | String _ s' => search_from r (S pos) s'
      | EmptyString => None
      end
  end.

Definition search (r : regex) (s : string) : option (nat * nat) :=
  search_from r 0 s.

(** [s.replace(old, new)] for a non-empty [old]: left to right, without
    overlaps; [skip] counts the characters of the last occurrence still to
    step over. *)
Fixpoint replace_from (old new : string) (skip : nat) (s : string) : string :=
  match s with
  | EmptyString => EmptyString
  | String c s' =>
      match skip with
      | S k => replace_from old new k s'
      | O =>
          if startswith old s
          then new ++ replace_from old new (String.length old - 1) s'
          else String c (replace_from old new 0 s')
      end
  end.

(** [new] after every character of [s]. *)
Fixpoint intersperse (new s : string) : string :=
  match s with
  | EmptyString => EmptyString
  | String c s' => String c (new ++ intersperse new s')
  end.

(** [s.replace(old, new)] *)
Definition replace (old new s : string) : string :=
  match old with
  | EmptyString => new ++ intersperse new s
  | String _ _ => replace_from old new 0 s
  end.

(** [str(n)] for a natural number *)
Definition str_of_nat (n : nat) : string :=
  NilEmpty.string_of_uint (Nat.to_uint n).

(** ASCII upper-casing *)
Definition upper (c : ascii) : ascii :=
  if in_range 97 122 c then ascii_of_nat (nat_of_ascii c - 32) else c.

Fixpoint lower_all (s : string) : string :=
  match s with
  | EmptyString => EmptyString
  | String c s' => String (lower c) (lower_all s')
  end.

(** [s.capitalize()] on an ASCII string *)
Definition capitalize (s : string) : string :=
  match s with
  | EmptyString => EmptyString
  | String c s' => String (upper c) (lower_all s')
  end.

(** The slice [l[start:]] of a list, for any integer [start]. *)
Definition slice_from {A : Type} (start : Z) (l : list A) : list A :=
  let n := Z.of_nat (length l) in
  let i := if (start <? 0)%Z then Z.max (start + n) 0 else Z.min start n in
  skipn (Z.to_nat i) l.

(* ================================================================== *)
(** * [utils/chat_memory.py]: [ChatMemory] *)

Module ChatMemory.

(** The three roles the class writes into a message. *)
Inductive role_t : Type := user | assistant | system.

Definition role_name (r : role_t) : string :=
  match r with
  | user => "user"
  | assistant => "assistant"
  | system => "system"
  end.

(** A message: the dictionary with the keys [role] and [content]. *)
Record message : Type := mkMessage { role : role_t; content : string }.

(** The object: [self.messages] and [self.max_history]. *)
Record t : Type := mkMemory { messages : list message; max_history : Z }.

(** [__init__] *)
Definition init (max_history : Z) : t := mkMemory [] max_history.

Definition _add_message (message : message) (self : t) : t :=
  let messages := (messages self ++ [message])%list in
  if (Z.of_nat (length messages) >? max_history self)%Z
  then mkMemory (slice_from (- max_history self) messages) (max_history self)
  else mkMemory messages (max_history self).

Definition add_user_message (content : string) (self : t) : t :=
  _add_message (mkMessage user content) self.

Definition add_assistant_message (content : string) (self : t) : t :=
  _add_message (mkMessage assistant content) self.

Definition add_system_message (content : string) (self : t) : t :=
  _add_message (mkMessage system content) self.

Definition get_messages (self : t) : list message := messages self.

Definition get_last_n_messages (n : Z) (self : t) : list message :=
  if (n <? Z.of_nat (length (messages self)))%Z
  then slice_from (- n) (messages self)
  else messages self.

(** One round of the loop of [get_formatted_history]. *)
Definition format_message (formatted_history : string) (message : message)
  : string :=
  formatted_history ++ capitalize (role_name (role message)) ++ ": "
  ++ content message ++ chr nl ++ chr nl.

(** [max_messages] is [None] or an integer; [if max_messages:] holds for a
    non-zero integer. *)
Definition get_formatted_history (max_messages : option Z) (self : t)
  : string :=
  let messages :=
    match max_messages with
    | Some n =>
        if (n =? 0)%Z then messages self else get_last_n_messages n self
    | None => messages self
    end in
  fold_left format_message messages EmptyString.

Definition clear (self : t) : t := mkMemory [] (max_history self).

End ChatMemory.

(* ================================================================== *)
(** * [agents/report_agent.py]: [_enhance_report_with_images] *)

(** [r'#\s*(?:Data|Visualization|Data\s+Visualization)'], compiled with
    [re.IGNORECASE] *)
Definition viz_section_pattern : regex :=
  Cat (LitI "#")
   (Cat (StarG isspace)
     (Alt (LitI "Data")
       (Alt (LitI "Visualization")
            (Cat (LitI "Data") (Cat (PlusG isspace) (LitI "Visualization")))))).

(** [r'#\s*(?:Conclusion|Conclusions)'], compiled with [re.IGNORECASE] *)
Definition conclusion_pattern : regex :=
  Cat (LitI "#")
   (Cat (StarG isspace) (Alt (LitI "Conclusion") (LitI "Conclusions"))).

(** The two lines added for the image of index [i]. *)
Definition figure_entry (i : nat) (img_file : string) : string :=
  let file_name := basename img_file in
  "### Figure " ++ str_of_nat (i + 1) ++ ": "
  ++ replace ".png" "" (replace "_" " " file_name) ++ chr nl ++ chr nl
  ++ "![" ++ file_name ++ "](" ++ file_name ++ ")" ++ chr nl ++ chr nl.

(** The loop [for i, img_file in enumerate(image_files)], appending to
    [text]. *)
Fixpoint add_figures (text : string) (i : nat) (image_files : list string)
  : string :=
  match image_files with
  | [] => text
  | img_file :: rest => add_figures (text ++ figure_entry i img_file) (S i) rest
  end.

Definition _enhance_report_with_images (report : string)
           (image_files : list string) (report_dir : string) : string :=
  match image_files with
  | [] => report
  | _ :: _ =>
      if contains "![" report then report
      else
        let enhanced_report := report in
        match search viz_section_pattern enhanced_report with
        | Some (_, section_start) =>
            let image_content := add_figures (chr nl ++ chr nl) 0 image_files in
            take section_start enhanced_report ++ image_content
            ++ drop section_start enhanced_report
        | None =>
            let visualization_section :=
              chr nl ++ chr nl ++ "# Data Visualization" ++ chr nl ++ chr nl in
            let visualization_section :=
              visualization_section
              ++ "The following visualizations provide graphical representation of the key data points and patterns identified in the analysis:"
              ++ chr nl ++ chr nl in
            let visualization_section :=
              add_figures visualization_section 0 image_files in
            match search conclusion_pattern enhanced_report with
            | Some (conclusion_start, _) =>
                take conclusion_start enhanced_report
                ++ visualization_section
                ++ drop conclusion_start enhanced_report
            | None => enhanced_report ++ visualization_section
            end
        end
  end.

(* ================================================================== *)
(** * More names for the parts of a call, and more sample programs *)

(** The code file of a call made in state [w]. *)
Definition code_file (P : Platform) (w : World) : string :=
  fst (code_file_and_scope P w).


(** The state in which the [finally] clause of that call starts. *)
Definition before_finally (P : Platform) (code : string)
           (file_path : option string) (w : World) : World :=
  let r := code_run P code file_path w in
  match raised r with
  | Some _ => after r
  | None => snd (save_open_figure (scratch_dir P w) (stdout r) (after r))
  end.

Module Sample2.

Definition py_figure_then_raise : string :=
  "import matplotlib.pyplot as plt" ++ chr nl ++ "plt.figure()" ++ chr nl
  ++ "raise ValueError('boom')".
Definition py_plot : string :=
  "import matplotlib.pyplot as plt" ++ chr nl ++ "plt.plot([1, 2])"
  ++ chr nl ++ "print('drawn')".

(** [plt.figure()]: one more open figure. *)
Definition new_figure (w : World) : World :=
  set_fignums (fignums w ++ [S (length (fignums w))])%list w.

Definition cpython (code : string) (file_path : option string) : program :=
  fun w =>
    if String.eqb code py_figure_then_raise then
      mkRun (Some (ValueError "boom")) "" "" (new_figure w)
    else if String.eqb code py_plot then
      mkRun None ("drawn" ++ chr nl) ""
            (match fignums w with [] => new_figure w | _ => w end)
    else Sample.cpython code file_path w.

Definition platform : Platform :=
  mkPlatform cpython (mkdtemp_name Sample.platform)
    (mkstemp_name Sample.platform) (format_exc Sample.platform).

End Sample2.

(** Several messages added one after the other. *)
Definition add_all (ms : list ChatMemory.message) (self : ChatMemory.t)
  : ChatMemory.t :=
  fold_left (fun self m => ChatMemory._add_message m self) ms self.

(** The text [get_formatted_history] writes for one message. *)
Definition history_line (m : ChatMemory.message) : string :=
  ChatMemory.format_message EmptyString m.

(** Three messages, for a memory of two. *)
Definition three_messages : list ChatMemory.message :=
  [ChatMemory.mkMessage ChatMemory.user "hello";
   ChatMemory.mkMessage ChatMemory.assistant "hi";
   ChatMemory.mkMessage ChatMemory.user "thanks"].





(** The reference to one image in a report. *)
Definition image_reference (img_file : string) : string :=
  "![" ++ basename img_file ++ "](" ++ basename img_file ++ ")".

(* ================================================================== *)
(** * Strings: basic facts *)

Section StringFacts.

Lemma app_assoc_s (a b c : string) : (a ++ b) ++ c = a ++ (b ++ c).
Proof. induction a as [|x a IH]; simpl; [reflexivity | now rewrite IH]. Qed.

Lemma app_nil_r_s (a : string) : a ++ "" = a.
Proof. induction a as [|x a IH]; simpl; [reflexivity | now rewrite IH]. Qed.

Lemma length_app_s (a b : string) :
String.length (a ++ b) = String.length a + String.length b.
Proof. induction a as [|x a IH]; simpl; [reflexivity | now rewrite IH]. Qed.

Lemma startswith_app (p s : string) : startswith p (p ++ s) = true.
Proof.
induction p as [|x p IH]; simpl; [reflexivity|].
now rewrite Ascii.eqb_refl, IH.
Qed.

Lemma startswith_spec (p s : string) :
startswith p s = true <-> exists t, s = p ++ t.
Proof.
split.
- revert s; induction p as [|x p IH]; intros s H.
  + now exists s.
  + destruct s as [|y s]; simpl in H; [discriminate|].
    apply andb_true_iff in H as [Hx Hp].
    apply Ascii.eqb_eq in Hx; subst y.
    destruct (IH _ Hp) as [t ->]. now exists t.
- intros [t ->]. apply startswith_app.
Qed.

Lemma startswith_app_l (p a b : string) :
startswith p a = true -> startswith p (a ++ b) = true.
Proof.
intros H. apply startswith_spec in H as [t ->].
rewrite app_assoc_s. apply startswith_app.
Qed.

Lemma drop_app (p s : string) : drop (String.length p) (p ++ s) = s.
Proof. induction p as [|x p IH]; simpl; [now destruct s | exact IH]. Qed.

Lemma take_app (p s : string) : take (String.length p) (p ++ s) = p.
Proof.
induction p as [|x p IH]; simpl; [now destruct s | now rewrite IH].
Qed.

Lemma contains_app_r (n a b : string) :
contains n b = true -> contains n (a ++ b) = true.
Proof.
intros H. induction a as [|x a IH]; simpl; [exact H|].
rewrite IH. apply orb_true_r.
Qed.

Lemma contains_app_l (n a b : string) :
contains n a = true -> contains n (a ++ b) = true.
Proof.
revert b; induction a as [|x a IH]; intros b H; simpl in H.
- destruct n; [|discriminate]. now destruct b.
- apply orb_true_iff in H as [H|H].
  + simpl. change (String x (a ++ b)) with (String x a ++ b).
    now rewrite (startswith_app_l _ _ _ H).
  + simpl. rewrite (IH _ H). apply orb_true_r.
Qed.

Lemma contains_spec (n s : string) :
contains n s = true <-> exists a b, s = a ++ n ++ b.
Proof.
split.
- induction s as [|x s IH]; simpl; intros H.
  + rewrite orb_false_r in H. apply startswith_spec in H as [t ->].
    now exists "", t.
  + apply orb_true_iff in H as [H|H].
    * apply startswith_spec in H as [t ->]. now exists "", t.
    * destruct (IH H) as (a & b & ->). now exists (String x a), b.
- intros (a & b & ->). apply contains_app_r, contains_app_l.
  assert (Hn : startswith n n = true)
    by (apply startswith_spec; exists ""; now rewrite app_nil_r_s).
  destruct n; [reflexivity|]. simpl in *. now rewrite Hn.
Qed.

(** [lstrip] and [rstrip] cut white space off the two ends. *)
Lemma lstrip_suffix (s : string) : exists ws, s = ws ++ lstrip s.
Proof.
induction s as [|x s [ws IH]]; simpl; [now exists ""|].
destruct (isspace x).
- exists (String x ws). simpl. now rewrite <- IH.
- now exists "".
Qed.

Lemma rstrip_prefix (s : string) : exists ws, s = rstrip s ++ ws.
Proof.
induction s as [|x s [ws IH]]; simpl; [now exists ""|].
destruct (rstrip s) as [|y r] eqn:E.
- destruct (isspace x).
  + exists (String x ws). simpl in IH. now rewrite <- IH.
  + exists ws. simpl in *. now rewrite <- IH.
- exists ws. simpl in *. now rewrite <- IH.
Qed.

Lemma lstrip_idem (s : string) : lstrip (lstrip s) = lstrip s.
Proof.
induction s as [|x s IH]; simpl; [reflexivity|].
destruct (isspace x) eqn:E; [exact IH|]. simpl. now rewrite E.
Qed.

Lemma lstrip_app_nonspace (a b : string) :
lstrip b = b -> lstrip (a ++ b) = lstrip a ++ b.
Proof.
intros Hb. induction a as [|x a IH]; simpl; [exact Hb|].
destruct (isspace x); [exact IH | reflexivity].
Qed.

End StringFacts.

(* ================================================================== *)
(** * The matcher on [code_block_pattern] *)

Section MatcherFacts.
Context {R : Type}.
Implicit Types (k : option string -> string -> option R).

Lemma m_Lit l cap s k :
  m (Lit l) cap s k
  = if startswith l s then k cap (drop (String.length l) s) else None.
Proof.
  revert s; induction l as [|x l IH]; intros s; simpl.
  - now destruct s.
  - destruct s as [|y s]; [reflexivity|].
    destruct (Ascii.eqb x y); simpl; [apply IH | reflexivity].
Qed.

Lemma starL_ext p (k1 k2 : string -> option R) s :
  (forall t, k1 t = k2 t) -> starL p k1 s = starL p k2 s.
Proof.
  intros H. induction s as [|c s IH]; cbn [starL]; rewrite H;
    [reflexivity | now rewrite IH].
Qed.

Lemma starG_ext p (k1 k2 : string -> option R) s :
  (forall t, k1 t = k2 t) -> starG p k1 s = starG p k2 s.
Proof.
  intros H. induction s as [|c s IH]; cbn [starG]; rewrite H;
    [reflexivity | now rewrite IH].
Qed.
End MatcherFacts.

Lemma split_fence_spec s b r :
  split_fence s = Some (b, r) -> s = b ++ fence ++ r.
Proof.
  revert b r; induction s as [|x s IH]; intros b r H.
  - discriminate.
  - cbn [split_fence] in H.
    destruct (startswith fence (String x s)) eqn:E.
    + injection H as <- <-. apply startswith_spec in E as [t E].
      unfold fence in E. simpl in E. injection E as -> ->. reflexivity.
    + destruct (split_fence s) as [[b' r']|]; [|discriminate].
      injection H as <- <-. simpl. f_equal. now apply IH.
Qed.

Lemma split_fence_none s :
  split_fence s = None <-> contains fence s = false.
Proof.
  induction s as [|x s IH].
  - simpl. tauto.
  - cbn [split_fence contains].
    destruct (startswith fence (String x s)); simpl.
    + split; discriminate.
    + destruct (split_fence s) as [[b r]|].
      * split; [discriminate|]. intros H. apply IH in H. discriminate.
      * split; [intros _; now apply IH | reflexivity].
Qed.

(** The body [split_fence] returns holds no fence of its own. *)
Lemma split_fence_body s b r :
  split_fence s = Some (b, r) -> contains fence b = false.
Proof.
  revert b r; induction s as [|x s IH]; intros b r H.
  - discriminate.
  - cbn [split_fence] in H.
    destruct (startswith fence (String x s)) eqn:E.
    + now injection H as <- <-.
    + destruct (split_fence s) as [[b' r']|] eqn:Es; [|discriminate].
      injection H as <- <-.
      cbn [contains]. rewrite (IH _ _ eq_refl), orb_false_r.
      destruct (startswith fence (String x b')) eqn:E'; [|reflexivity].
      apply split_fence_spec in Es. subst s.
      change (String x (b' ++ fence ++ r')) with (String x b' ++ fence ++ r') in E.
      now rewrite (startswith_app_l _ _ _ E') in E.
Qed.

(** What the tail of the pattern, [([\s\S]*?)```], finds in [t]. *)
Lemma lazy_body pre t :
  starL any
    (fun s' =>
       if startswith fence s'
       then Some (Some (take (String.length (pre ++ t) - String.length s')
                             (pre ++ t)),
                  drop 3 s')
       else None) t
  = match split_fence t with
    | Some (b, r) => Some (Some (pre ++ b), r)
    | None => None
    end.
Proof.
  revert pre; induction t as [|c t IH]; intros pre.
  - reflexivity.
  - cbn [starL split_fence].
    destruct (startswith fence (String c t)) eqn:E.
    + rewrite length_app_s, Nat.add_sub, take_app, app_nil_r_s. reflexivity.
    + cbn [any].
      replace (pre ++ String c t) with ((pre ++ chr c) ++ t)
        by now rewrite app_assoc_s.
      rewrite IH. destruct (split_fence t) as [[b r]|]; [|reflexivity].
      now rewrite app_assoc_s.
Qed.

Lemma close_block cap s :
  m (Cat (Grp (StarL any)) (Lit fence)) cap s (fun c r => Some (c, r))
  = body_of s.
Proof.
  cbn [m]. unfold body_of.
  assert (E := lazy_body "" s). cbn [append] in E. rewrite <- E.
  apply starL_ext. intros t. now rewrite m_Lit.
Qed.

Lemma isspace_not_fence c t :
  isspace c = true -> startswith fence (String c t) = false.
Proof.
  intros H. unfold fence. cbn [startswith].
  destruct (Ascii.eqb "`" c) eqn:E; [|reflexivity].
  apply Ascii.eqb_eq in E. subst c. discriminate.
Qed.

Lemma body_of_none t : body_of t = None <-> contains fence t = false.
Proof.
  unfold body_of. rewrite <- split_fence_none.
  destruct (split_fence t) as [[b r]|]; split; congruence.
Qed.

Lemma contains_fence_lstrip t :
  contains fence (lstrip t) = contains fence t.
Proof.
  induction t as [|c t IH]; [reflexivity|].
  cbn [lstrip]. destruct (isspace c) eqn:E; [|reflexivity].
  cbn [contains]. now rewrite (isspace_not_fence _ _ E), IH.
Qed.

(** [\s*] in front of the body: giving white space back never helps. *)
Lemma greedy_space s : starG isspace body_of s = body_of (lstrip s).
Proof.
  induction s as [|c s IH]; [reflexivity|].
  cbn [starG lstrip]. destruct (isspace c) eqn:E; [|reflexivity].
  rewrite IH. destruct (body_of (lstrip s)) eqn:Eb; [reflexivity|].
  apply body_of_none. apply body_of_none in Eb.
  rewrite contains_fence_lstrip in Eb.
  cbn [contains]. now rewrite (isspace_not_fence _ _ E), Eb.
Qed.

Lemma after_tag cap s :
  m (Cat (StarG isspace) (Cat (Grp (StarL any)) (Lit fence))) cap s
    (fun c r => Some (c, r))
  = body_of (lstrip s).
Proof.
  cbn [m]. rewrite <- greedy_space. apply starG_ext.
  intros t. exact (close_block cap t).
Qed.

(** [(?:python|py)?]: falling back to a shorter tag never helps. *)
Lemma match_at_code_block s : match_at code_block_pattern s = block_at s.
Proof.
  unfold match_at, code_block_pattern, block_at.
  remember (Cat (StarG isspace) (Cat (Grp (StarL any)) (Lit "```"))) as tail
    eqn:Et.
  assert (Ht : forall cap t,
             m tail cap t (fun c r => Some (c, r)) = body_of (lstrip t))
    by (intros; subst tail; apply after_tag).
  clear Et. cbn [m]. rewrite m_Lit.
  change (startswith "```" s) with (startswith fence s).
  destruct (startswith fence s); [|reflexivity].
  change (String.length "```") with 3.
  generalize (drop 3 s) as u. intros u.
  unfold Opt. cbn [m]. rewrite !m_Lit, !Ht.
  unfold strip_tag.
  destruct (startswith "python" u) eqn:E6.
  - apply startswith_spec in E6 as [t ->].
    change (drop (String.length "python") ("python" ++ t)) with t.
    change (drop 6 ("python" ++ t)) with t.
    destruct (body_of (lstrip t)) eqn:Eb; [reflexivity|].
    apply body_of_none in Eb. rewrite contains_fence_lstrip in Eb.
    assert (H2 : body_of (lstrip (drop (String.length "py") ("python" ++ t))) = None).
    { apply body_of_none. rewrite contains_fence_lstrip. simpl. exact Eb. }
    assert (H0 : body_of (lstrip ("python" ++ t)) = None).
    { apply body_of_none. rewrite contains_fence_lstrip. simpl. exact Eb. }
    change (startswith "py" ("python" ++ t)) with true. cbv iota.
    now rewrite H2, H0.
  - destruct (startswith "py" u) eqn:E2.
    + apply startswith_spec in E2 as [t ->].
      change (drop (String.length "py") ("py" ++ t)) with t.
      change (drop 2 ("py" ++ t)) with t.
      destruct (body_of (lstrip t)) eqn:Eb; [reflexivity|].
      apply body_of_none in Eb. rewrite contains_fence_lstrip in Eb.
      apply body_of_none. rewrite contains_fence_lstrip.
      simpl. exact Eb.
    + reflexivity.
Qed.

(* ================================================================== *)
(** * [re.findall] on [code_block_pattern] *)

Lemma findall_from_0 r s :
  findall_from r 0 s
  = match match_at r s with
    | Some (cap, rest) =>
        group1 cap ::
          match s with
          | String _ s' =>
              findall_from r (String.length s - String.length rest - 1) s'
          | EmptyString => []
          end
    | None =>
        match s with
        | String _ s' => findall_from r 0 s'
        | EmptyString => []
        end
    end.
Proof. now destruct s. Qed.

Lemma contains_drop n k u :
  contains n (drop k u) = true -> contains n u = true.
Proof.
  revert u; induction k as [|k IH]; intros u H; [now destruct u|].
  destruct u as [|c u]; [exact H|].
  cbn [drop] in H. cbn [contains]. rewrite (IH _ H). apply orb_true_r.
Qed.

Lemma contains_strip_tag u :
  contains fence (strip_tag u) = true -> contains fence u = true.
Proof.
  unfold strip_tag.
  destruct (startswith "python" u); [apply contains_drop|].
  destruct (startswith "py" u); [apply contains_drop | auto].
Qed.

Lemma has_block_here s :
  startswith fence s = true -> has_block s = contains fence (drop 3 s).
Proof.
  intros H. unfold has_block.
  destruct s as [|c s]; [discriminate|].
  cbn [split_fence]. now rewrite H.
Qed.

Lemma has_block_tail c s : has_block s = true -> has_block (String c s) = true.
Proof.
  unfold has_block. destruct (split_fence s) as [[b r]|] eqn:E; [|discriminate].
  intros Hr. cbn [split_fence]. rewrite E.
  destruct (startswith fence (String c s)); [|exact Hr].
  apply split_fence_spec in E. subst s. cbn [drop].
  destruct b as [|x [|y b]]; cbn [append drop fence].
  - apply (contains_app_r _ "`"), Hr.
  - apply (contains_app_r _ "``"), Hr.
  - apply contains_app_r, (contains_app_r _ "```"), Hr.
Qed.

Lemma block_at_none s : has_block s = false -> block_at s = None.
Proof.
  intros H. unfold block_at.
  destruct (startswith fence s) eqn:E; [|reflexivity].
  rewrite (has_block_here _ E) in H.
  apply body_of_none. rewrite contains_fence_lstrip.
  destruct (contains fence (strip_tag (drop 3 s))) eqn:E'; [|reflexivity].
  apply contains_strip_tag in E'. congruence.
Qed.

(** Without two fences the pattern matches nowhere. *)
Lemma findall_no_block s :
  has_block s = false -> findall code_block_pattern s = [].
Proof.
  unfold findall. induction s as [|c s IH]; intros H.
  - reflexivity.
  - rewrite findall_from_0, match_at_code_block, (block_at_none _ H).
    apply IH. destruct (has_block s) eqn:E; [|reflexivity].
    now rewrite (has_block_tail c _ E) in H.
Qed.

(** The first match captures a text free of fences. *)
Lemma findall_head_no_fence s b l :
  findall code_block_pattern s = b :: l -> contains fence b = false.
Proof.
  unfold findall. induction s as [|c s IH];
    rewrite findall_from_0, match_at_code_block.
  - discriminate.
  - destruct (block_at (String c s)) as [[cap rest]|] eqn:E; [|exact IH].
    intros H. injection H as <- _.
    unfold block_at in E.
    destruct (startswith fence (String c s)); [|discriminate].
    unfold body_of in E.
    destruct (split_fence _) as [[b r]|] eqn:Es; [|discriminate].
    injection E as <- _. exact (split_fence_body _ _ _ Es).
Qed.

(** A fence can only start where the text in front has ended. *)
Lemma no_fence_inside c p y :
  contains fence (String c p ++ "``") = false ->
  startswith fence (String c p ++ fence ++ y) = false.
Proof.
  intros H. cbn [append contains] in H.
  apply orb_false_iff in H as [H _].
  destruct (startswith fence (String c p ++ fence ++ y)) eqn:E; [|reflexivity].
  exfalso. revert H E. unfold fence.
  destruct p as [|a [|b p]]; cbn [append startswith]; intros H E.
  - rewrite andb_true_r in *. congruence.
  - rewrite !andb_true_r in *. congruence.
  - congruence.
Qed.

Lemma no_fence_tail c p :
  contains fence (String c p ++ "``") = false ->
  contains fence (p ++ "``") = false.
Proof.
  intros H. cbn [append contains] in H.
  now apply orb_false_iff in H as [_ H].
Qed.

Lemma split_fence_first pre y :
  contains fence (pre ++ "``") = false ->
  split_fence (pre ++ fence ++ y) = Some (pre, y).
Proof.
  induction pre as [|c p IH]; intros H.
  - reflexivity.
  - change (String c p ++ fence ++ y) with (String c (p ++ fence ++ y)).
    cbn [split_fence].
    change (String c (p ++ fence ++ y)) with (String c p ++ fence ++ y).
    rewrite (no_fence_inside _ _ _ H), (IH (no_fence_tail _ _ H)).
    reflexivity.
Qed.

(** The scan steps over everything in front of the first fence. *)
Lemma findall_skip pre y :
  contains fence (pre ++ "``") = false ->
  findall code_block_pattern (pre ++ fence ++ y)
  = findall code_block_pattern (fence ++ y).
Proof.
  unfold findall. induction pre as [|c p IH]; intros H.
  - reflexivity.
  - rewrite findall_from_0, match_at_code_block.
    unfold block_at at 1. rewrite (no_fence_inside _ _ _ H).
    cbn [append]. apply IH, (no_fence_tail _ _ H).
Qed.

Lemma clean_at_first_fence pre y b r :
  contains fence (pre ++ "``") = false ->
  split_fence (lstrip (strip_tag y)) = Some (b, r) ->
  _clean_code_for_execution (pre ++ fence ++ y) = strip b.
Proof.
  intros Hpre Hy. unfold _clean_code_for_execution.
  rewrite (findall_skip _ _ Hpre). unfold findall.
  rewrite findall_from_0, match_at_code_block.
  unfold block_at. rewrite startswith_app.
  change (drop 3 (fence ++ y)) with y.
  unfold body_of. rewrite Hy. reflexivity.
Qed.

(* ================================================================== *)
(** * The normalizer *)

Lemma fence_first_spec s :
  fence_first s = true -> contains fence (s ++ "``") = false.
Proof. unfold fence_first. now destruct (contains fence (s ++ "``")). Qed.

Lemma no_fence_no_block s : contains fence s = false -> has_block s = false.
Proof.
  intros H. unfold has_block. apply split_fence_none in H. now rewrite H.
Qed.

(** [has_block] says what its name says. *)
Lemma has_block_spec s :
  has_block s = true <-> exists a b c, s = a ++ fence ++ b ++ fence ++ c.
Proof.
  split.
  - unfold has_block. destruct (split_fence s) as [[a r]|] eqn:E; [|discriminate].
    intros H. apply contains_spec in H as (b & c & ->).
    apply split_fence_spec in E. now exists a, b, c.
  - intros (a & b & c & ->). induction a as [|x a IH].
    + cbn [append]. rewrite has_block_here by apply startswith_app.
      change (drop 3 (fence ++ b ++ fence ++ c)) with (b ++ fence ++ c).
      apply contains_spec. now exists b, c.
    + apply has_block_tail, IH.
Qed.

Lemma contains_fence_strip b :
  contains fence b = false -> contains fence (strip b) = false.
Proof.
  intros H. unfold strip.
  destruct (contains fence (rstrip (lstrip b))) eqn:E; [|reflexivity].
  destruct (rstrip_prefix (lstrip b)) as [ws Hws].
  apply (contains_app_l _ _ ws) in E. rewrite <- Hws in E.
  rewrite contains_fence_lstrip in E. congruence.
Qed.

Lemma strip_lstrip s : strip (lstrip s) = strip s.
Proof. unfold strip. now rewrite lstrip_idem. Qed.

Lemma rstrip_keeps tag x :
  no_space tag = true -> exists z, rstrip (tag ++ x) = tag ++ z.
Proof.
  induction tag as [|c t IH]; intros H.
  - now exists (rstrip x).
  - cbn [no_space] in H. apply andb_true_iff in H as [Hc Ht].
    apply negb_true_iff in Hc.
    destruct (IH Ht) as [z Hz]. cbn [append rstrip]. rewrite Hz, Hc.
    destruct (t ++ z) as [|y r] eqn:E.
    + destruct t; [|discriminate]. cbn [append] in E. subst z. now exists "".
    + exists z. cbn [append]. now rewrite E.
Qed.

Lemma startswith_python_py s :
  startswith "py" s = false -> startswith "python" s = false.
Proof.
  intros H. destruct (startswith "python" s) eqn:E; [|reflexivity].
  apply startswith_spec in E as [t ->]. discriminate.
Qed.

Lemma startswith_py_tag tag z :
  startswith "py" tag = false ->
  startswith "py" (tag ++ String nl z) = false.
Proof.
  destruct tag as [|c [|d t]]; cbn [append startswith]; intros H.
  - reflexivity.
  - change (Ascii.eqb "y" nl) with false. apply andb_false_r.
  - exact H.
Qed.

Lemma split_fence_pre s pre y :
  split_fence s = Some (pre, y) -> contains fence (pre ++ "``") = false.
Proof.
  revert pre y; induction s as [|x s IH]; intros pre y H.
  - discriminate.
  - cbn [split_fence] in H.
    destruct (startswith fence (String x s)) eqn:E.
    + now injection H as <- <-.
    + destruct (split_fence s) as [[b r]|] eqn:Es; [|discriminate].
      injection H as <- <-.
      cbn [append contains]. rewrite (IH _ _ eq_refl), orb_false_r.
      destruct (startswith fence (String x (b ++ "``"))) eqn:E';
        [|reflexivity].
      apply split_fence_spec in Es. subst s. exfalso. revert E E'.
      unfold fence. destruct b as [|a [|c b]]; cbn [append startswith];
        intros E E'.
      * rewrite !andb_true_r in *. congruence.
      * rewrite !andb_true_r in *. congruence.
      * congruence.
Qed.

Lemma contains_fence_strip_tag u :
  contains fence (strip_tag u) = contains fence u.
Proof.
  unfold strip_tag. destruct (startswith "python" u) eqn:E6.
  - apply startswith_spec in E6 as [t ->]. reflexivity.
  - destruct (startswith "py" u) eqn:E2; [|reflexivity].
    apply startswith_spec in E2 as [t ->]. reflexivity.
Qed.

(** What the normalizer computes, for every input: the text between the
    tag after the first triple backtick and the next triple backtick,
    trimmed; the input itself when there is no such pair. *)
Lemma clean_code_spec (code : string) :
  _clean_code_for_execution code
  = match split_fence code with
    | Some (_, opened) =>
        match split_fence (lstrip (strip_tag opened)) with
        | Some (body, _) => strip body
        | None => code
        end
    | None => code
    end.
Proof.
  destruct (split_fence code) as [[pre y]|] eqn:E.
  - pose proof (split_fence_spec _ _ _ E) as ->.
    destruct (split_fence (lstrip (strip_tag y))) as [[b r]|] eqn:Ey.
    + exact (clean_at_first_fence _ _ _ _ (split_fence_pre _ _ _ E) Ey).
    + unfold _clean_code_for_execution. rewrite findall_no_block; [reflexivity|].
      unfold has_block. rewrite E.
      apply split_fence_none in Ey.
      now rewrite contains_fence_lstrip, contains_fence_strip_tag in Ey.
  - unfold _clean_code_for_execution. rewrite findall_no_block; [reflexivity|].
    unfold has_block. now rewrite E.
Qed.

(** C5 (amended): an input that holds no fenced block, that is no triple
    backtick followed later by another one, is returned as it is, not
    trimmed; the normalizer is a total function, and the empty input gives
    the empty output. *)
Theorem clean_without_block (code : string) :
  has_block code = false ->
  _clean_code_for_execution code = code
  /\ _clean_code_for_execution "" = "".
Proof.
  intros H. split; [|reflexivity].
  unfold _clean_code_for_execution. now rewrite (findall_no_block _ H).
Qed.

(** C6: normalizing twice gives what normalizing once gives. *)
Theorem clean_idempotent (x : string) :
  _clean_code_for_execution (_clean_code_for_execution x)
  = _clean_code_for_execution x.
Proof.
  destruct (findall code_block_pattern x) as [|b l] eqn:E.
  - assert (H : _clean_code_for_execution x = x)
      by (unfold _clean_code_for_execution; now rewrite E).
    now rewrite !H.
  - assert (H : _clean_code_for_execution x = strip b)
      by (unfold _clean_code_for_execution; now rewrite E).
    rewrite H. unfold _clean_code_for_execution at 1.
    rewrite findall_no_block; [reflexivity|].
    apply no_fence_no_block, contains_fence_strip.
    exact (findall_head_no_fence _ _ _ E).
Qed.

(** C4 (amended): when the first triple backtick of the input opens a
    block whose tag is absent, [py] or [python], followed by a newline and
    a body that is closed by the next triple backtick, the normalizer
    returns the trimmed body of that block, whatever follows it; so of two
    such blocks B1 then B2 it returns trim(B1). *)
Theorem clean_first_block (pre tag body rest : string) :
  tag = "" \/ tag = "py" \/ tag = "python" ->
  fence_first pre = true ->
  fence_first body = true ->
  _clean_code_for_execution (pre ++ fenced tag body ++ rest) = strip body
  /\ forall mid tag2 body2 post,
       _clean_code_for_execution
         (pre ++ fenced tag body ++ mid ++ fenced tag2 body2 ++ post)
       = strip body.
Proof.
  intros Htag Hpre Hbody.
  apply fence_first_spec in Hpre. apply fence_first_spec in Hbody.
  assert (H : forall rest',
             _clean_code_for_execution (pre ++ fenced tag body ++ rest')
             = strip body).
  { intros rest'. rewrite <- strip_lstrip. unfold fenced.
    rewrite !app_assoc_s.
    apply (clean_at_first_fence pre _ (lstrip body) rest' Hpre).
    assert (Ht : strip_tag (tag ++ chr nl ++ body ++ fence ++ rest')
                 = chr nl ++ body ++ fence ++ rest')
      by (destruct Htag as [->|[->| ->]]; reflexivity).
    rewrite Ht. cbn [chr append lstrip].
    change (isspace nl) with true. cbv iota.
    rewrite lstrip_app_nonspace by reflexivity.
    apply split_fence_first.
    destruct (contains fence (lstrip body ++ "``")) eqn:E; [|reflexivity].
    destruct (lstrip_suffix body) as [ws Hws].
    apply (contains_app_r _ ws) in E.
    rewrite <- app_assoc_s, <- Hws in E. congruence. }
  split; [apply H|].
  intros mid tag2 body2 post. apply H.
Qed.

(** C10 (amended): when the first triple backtick of the input opens a
    block whose tag is a non-empty word that does not begin with [py], the
    tag is not stepped over: what the normalizer returns is the trimmed
    text from the tag to the closing fence, and it begins with the tag. *)
Theorem clean_keeps_other_tag (pre tag body rest : string) :
  tag <> "" ->
  no_space tag = true ->
  startswith "py" tag = false ->
  fence_first pre = true ->
  fence_first (tag ++ chr nl ++ body) = true ->
  _clean_code_for_execution (pre ++ fenced tag body ++ rest)
  = strip (tag ++ chr nl ++ body)
  /\ startswith tag (_clean_code_for_execution (pre ++ fenced tag body ++ rest))
     = true.
Proof.
  intros Hne Hsp Hpy Hpre Hbody.
  apply fence_first_spec in Hpre. apply fence_first_spec in Hbody.
  assert (Hl : lstrip (tag ++ chr nl ++ body ++ fence ++ rest)
               = tag ++ chr nl ++ body ++ fence ++ rest).
  { destruct tag as [|c t]; [congruence|].
    cbn [no_space] in Hsp. apply andb_true_iff in Hsp as [Hc _].
    apply negb_true_iff in Hc. cbn [append lstrip]. now rewrite Hc. }
  assert (E : _clean_code_for_execution (pre ++ fenced tag body ++ rest)
              = strip (tag ++ chr nl ++ body)).
  { unfold fenced. rewrite !app_assoc_s.
    apply (clean_at_first_fence pre _ (tag ++ chr nl ++ body) rest Hpre).
    unfold strip_tag.
    change (chr nl ++ body ++ fence ++ rest)
      with (String nl (body ++ fence ++ rest)) in *.
    rewrite (startswith_python_py _ (startswith_py_tag _ _ Hpy)).
    rewrite (startswith_py_tag _ _ Hpy), Hl.
    change (String nl (body ++ fence ++ rest))
      with (chr nl ++ body ++ fence ++ rest).
    replace (tag ++ chr nl ++ body ++ fence ++ rest)
      with ((tag ++ chr nl ++ body) ++ fence ++ rest)
      by now rewrite !app_assoc_s.
    now apply split_fence_first. }
  split; [exact E|]. rewrite E. unfold strip.
  assert (Hl' : lstrip (tag ++ chr nl ++ body) = tag ++ chr nl ++ body).
  { destruct tag as [|c t]; [congruence|].
    cbn [no_space] in Hsp. apply andb_true_iff in Hsp as [Hc _].
    apply negb_true_iff in Hc. cbn [append lstrip]. now rewrite Hc. }
  rewrite Hl'. destruct (rstrip_keeps tag (chr nl ++ body) Hsp) as [z ->].
  apply startswith_app.
Qed.

(* ================================================================== *)
(** * The file system *)

Lemma assoc_unlink_other k k' f :
  k <> k' -> assoc k' (unlink k f) = assoc k' f.
Proof.
  intros Hk. induction f as [|[a n] f IH]; [reflexivity|].
  cbn [unlink assoc].
  destruct (String.eqb a k) eqn:Ea.
  - apply String.eqb_eq in Ea. subst a.
    destruct (String.eqb k k') eqn:E; [|exact IH].
    apply String.eqb_eq in E. contradiction.
  - cbn [assoc]. now rewrite IH.
Qed.

Lemma assoc_unlink_same k f : assoc k (unlink k f) = None.
Proof.
  induction f as [|[a n] f IH]; [reflexivity|].
  cbn [unlink]. destruct (String.eqb a k) eqn:E; [exact IH|].
  cbn [assoc]. now rewrite E.
Qed.

(** What [touch] does to one entry. *)
Lemma assoc_touch k t f q :
  assoc q (touch k t f)
  = if String.eqb k q
    then option_map (fun n => mkNode (is_dir n) t) (assoc q f)
    else assoc q f.
Proof.
  induction f as [|[a n] f IH].
  - now destruct (String.eqb k q).
  - unfold touch in *. cbn [map fst snd].
    destruct (String.eqb a k) eqn:Ea; cbn [assoc].
    + apply String.eqb_eq in Ea. subst a.
      destruct (String.eqb k q) eqn:Eq; [reflexivity | exact IH].
    + destruct (String.eqb a q) eqn:Eq; [|exact IH].
      apply String.eqb_eq in Eq. subst a.
      rewrite String.eqb_sym in Ea. now rewrite Ea.
Qed.


Lemma touch_isdir k t f q : fs_isdir (touch k t f) q = fs_isdir f q.
Proof.
  unfold fs_isdir, fs_lookup. rewrite assoc_touch.
  destruct (String.eqb k (normpath q)); [|reflexivity].
  now destruct (assoc (normpath q) f).
Qed.


Lemma unlink_isdir_other k f q :
  k <> normpath q -> fs_isdir (unlink k f) q = fs_isdir f q.
Proof.
  intros H. unfold fs_isdir, fs_lookup. now rewrite assoc_unlink_other.
Qed.

Lemma fs_create_same f p n t : fs_lookup (fs_create f p n t) p = Some n.
Proof.
  unfold fs_lookup, fs_create. cbn [assoc]. now rewrite String.eqb_refl.
Qed.

Lemma fs_create_isdir_other f p n t q :
  normpath q <> normpath p ->
  fs_isdir (fs_create f p n t) q = fs_isdir f q.
Proof.
  intros H. unfold fs_create, fs_isdir at 1, fs_lookup. cbn [assoc].
  destruct (String.eqb (normpath p) (normpath q)) eqn:E.
  - apply String.eqb_eq in E. congruence.
  - fold (fs_lookup (unlink (normpath p)
                       (touch (dirname (normpath p)) t f)) q).
    fold (fs_isdir (unlink (normpath p)
                      (touch (dirname (normpath p)) t f)) q).
    rewrite unlink_isdir_other by congruence. apply touch_isdir.
Qed.


(** Writing a regular file leaves every directory a directory. *)
Lemma fs_write_isdir f p t f' q :
  fs_write f p t = Some f' -> fs_isdir f' q = fs_isdir f q.
Proof.
  unfold fs_write. destruct (fs_isdir f p) eqn:Ep; [discriminate|].
  destruct (fs_isdir f (dirname (normpath p))); [|discriminate].
  destruct (String.eqb (normpath p) (normpath q)) eqn:E.
  - apply String.eqb_eq in E.
    assert (Hq : fs_isdir f q = false)
      by (unfold fs_isdir, fs_lookup in *; now rewrite <- E).
    rewrite Hq.
    destruct (fs_exists f p); intros H; injection H as <-;
      unfold fs_create, fs_isdir, fs_lookup; cbn [assoc];
      now rewrite <- E, String.eqb_refl.
  - apply String.eqb_neq in E.
    destruct (fs_exists f p); intros H; injection H as <-.
    + unfold fs_isdir, fs_lookup. cbn [assoc].
      destruct (String.eqb (normpath p) (normpath q)) eqn:E';
        [apply String.eqb_eq in E'; contradiction|].
      now rewrite assoc_unlink_other.
    + apply fs_create_isdir_other. congruence.
Qed.





Lemma fs_remove_isdir f p t f' q :
  fs_remove f p t = Some f' -> fs_isdir f' q = fs_isdir f q.
Proof.
  unfold fs_remove.
  destruct (fs_lookup f p) as [n|] eqn:Ep; [|discriminate].
  destruct (is_dir n) eqn:En; [discriminate|].
  intros H. injection H as <-. rewrite touch_isdir.
  destruct (String.eqb (normpath p) (normpath q)) eqn:E.
  - apply String.eqb_eq in E. unfold fs_isdir, fs_lookup in *.
    rewrite <- E, Ep, En. now rewrite assoc_unlink_same.
  - apply String.eqb_neq in E. now apply unlink_isdir_other.
Qed.




Lemma remove_first_absent x l : mem x l = false -> remove_first x l = l.
Proof.
  unfold mem. induction l as [|y l IH]; [reflexivity|].
  cbn [existsb remove_first]. intros H.
  apply orb_false_iff in H as [-> H]. now rewrite IH.
Qed.

Lemma is_list_spec p : is_list p = true <-> exists l, p = PathList l.
Proof.
  destruct p as [l|]; cbn; split; try discriminate.
  - intros _. now exists l.
  - reflexivity.
  - intros [l H]. discriminate.
Qed.


(* ================================================================== *)
(** * [execute_python_code], step by step *)

Section ExecutorFacts.
Variable P : Platform.

Lemma mkdtemp_isdir w :
  fs_isdir (fs (snd (mkdtemp P w))) (fst (mkdtemp P w)) = true.
Proof.
  unfold mkdtemp, fs_isdir. cbn [fst snd fs set_fs].
  now rewrite fs_create_same.
Qed.

(** The new directory takes no directory away. *)
Lemma mkdtemp_keeps_dir w q :
  fs_isdir (fs w) q = true -> fs_isdir (fs (snd (mkdtemp P w))) q = true.
Proof.
  intros H. unfold mkdtemp. cbn [snd fs set_fs].
  destruct (String.eqb (normpath q) (normpath (mkdtemp_name P w))) eqn:E.
  - apply String.eqb_eq in E. unfold fs_isdir, fs_lookup. rewrite E.
    fold (fs_lookup (fs_create (fs w) (mkdtemp_name P w)
                       (mkNode true (now w)) (now w)) (mkdtemp_name P w)).
    now rewrite fs_create_same.
  - apply String.eqb_neq in E. now rewrite fs_create_isdir_other.
Qed.

Lemma scope_cwd w : cwd (scope P w) = scratch_dir P w.
Proof. reflexivity. Qed.



(** The body of [try], in terms of the run of the submitted code. *)
Lemma try_body_run code fp w :
  is_list (sys_path w) = true ->
  let r := python P code fp (scope P w) in
  try_body P code fp (fst (mkdtemp P w)) (snd (mkdtemp P w))
  = match raised r with
    | Some e => (after r, Some (fst (code_file_and_scope P w)), inl e)
    | None =>
        let '(output, w5) :=
          save_open_figure (scratch_dir P w) (stdout r) (after r) in
        (w5, Some (fst (code_file_and_scope P w)),
         inr (assemble (stderr r) output))
    end.
Proof.
  intros Hl r. subst r. destruct (sys_path w) as [l|] eqn:E; [|discriminate].
  unfold try_body, os_chdir. rewrite mkdtemp_isdir.
  unfold scope, code_file_and_scope, mkdtemp, scratch_dir.
  cbn [fst snd sys_path set_cwd set_fs set_sys_path]. rewrite E.
  reflexivity.
Qed.


Lemma save_open_figure_isdir d out w q :
  fs_isdir (fs (snd (save_open_figure d out w))) q = fs_isdir (fs w) q.
Proof.
  unfold save_open_figure. destruct (fignums w); [reflexivity|].
  destruct (fs_write _ _ _) eqn:E; [|reflexivity].
  cbn [snd fs set_fignums set_fs]. exact (fs_write_isdir _ _ _ _ _ E).
Qed.

Lemma save_open_figure_sys_path d out w :
  sys_path (snd (save_open_figure d out w)) = sys_path w.
Proof.
  unfold save_open_figure. destruct (fignums w); [reflexivity|].
  now destruct (fs_write _ _ _).
Qed.




Lemma remove_quietly_sys_path f w :
  sys_path (remove_quietly f w) = sys_path w.
Proof.
  unfold remove_quietly. destruct f; [|reflexivity].
  now destruct (fs_remove _ _ _).
Qed.



(** ... and, with a list for [sys.path], the pending outcome stands and
    the first occurrence of the scratch directory is taken off the
    list. *)
Lemma finally_restores cwd0 d f pending w2 l :
  fs_isdir (fs w2) cwd0 = true ->
  sys_path w2 = PathList l ->
  fst (finally_block cwd0 d f pending w2) = pending
  /\ sys_path (snd (finally_block cwd0 d f pending w2))
     = PathList (remove_first d l).
Proof.
  intros H Hl. unfold finally_block, os_chdir. rewrite H.
  rewrite remove_quietly_sys_path. cbn [sys_path set_cwd]. rewrite Hl.
  cbn [fst snd]. split; [reflexivity|].
  destruct (mem d l) eqn:E; cbn [sys_path set_sys_path]; [reflexivity|].
  rewrite remove_quietly_sys_path. cbn [sys_path set_cwd].
  now rewrite Hl, remove_first_absent.
Qed.

(** ... and, with [None] for [sys.path], the membership test raises. *)
Lemma finally_no_list cwd0 d f pending w2 :
  fs_isdir (fs w2) cwd0 = true ->
  sys_path w2 = PathNone ->
  fst (finally_block cwd0 d f pending w2) = Raises not_iterable
  /\ sys_path (snd (finally_block cwd0 d f pending w2)) = PathNone.
Proof.
  intros H Hl. unfold finally_block, os_chdir. rewrite H.
  rewrite remove_quietly_sys_path. cbn [sys_path set_cwd]. rewrite Hl.
  cbn [fst snd]. split; [reflexivity|].
  rewrite remove_quietly_sys_path. exact Hl.
Qed.

(** [finally] when it is gone. *)
Lemma finally_fails cwd0 d f pending w2 :
  fs_isdir (fs w2) cwd0 = false ->
  finally_block cwd0 d f pending w2 = (Raises (FileNotFoundError cwd0), w2).
Proof. intros H. unfold finally_block, os_chdir. now rewrite H. Qed.


(** A call that gets past [os.getcwd()], in terms of the body of
    [try]. *)
Lemma execute_try code fp w :
  fs_isdir (fs (snd (mkdtemp P w))) (cwd w) = true ->
  execute_python_code P code fp w
  = let '(w2, temp_file_path, res) :=
      try_body P (_clean_code_for_execution code) fp
        (fst (mkdtemp P w)) (snd (mkdtemp P w)) in
    finally_block (cwd w) (scratch_dir P w) temp_file_path (handle P res) w2.
Proof.
  intros H. unfold execute_python_code.
  destruct (mkdtemp P w) as [temp_dir w1] eqn:Em.
  assert (Hd : temp_dir = scratch_dir P w)
    by (unfold mkdtemp in Em; now injection Em).
  assert (Hc : cwd w1 = cwd w)
    by (unfold mkdtemp in Em; injection Em as _ <-; reflexivity).
  cbn [fst snd] in *. unfold os_getcwd. rewrite Hc, H. now rewrite Hd.
Qed.

(** The whole call, in terms of the run of the submitted code. *)
Lemma execute_run code fp w :
  can_start w = true ->
  let r := code_run P code fp w in
  let f := Some (fst (code_file_and_scope P w)) in
  let d := scratch_dir P w in
  execute_python_code P code fp w
  = match raised r with
    | Some e => finally_block (cwd w) d f (handle P (inl e)) (after r)
    | None =>
        finally_block (cwd w) d f
          (Returned (assemble (stderr r)
                       (fst (save_open_figure d (stdout r) (after r)))))
          (snd (save_open_figure d (stdout r) (after r)))
    end.
Proof.
  intros Hs r f d. apply andb_true_iff in Hs as [Hcwd Hl].
  rewrite (execute_try code fp w (mkdtemp_keeps_dir w _ Hcwd)).
  pose proof (try_body_run (_clean_code_for_execution code) fp w Hl) as Ht.
  cbv zeta in Ht. rewrite Ht.
  change (python P (_clean_code_for_execution code) fp (scope P w)) with r.
  fold f. fold d.
  destruct (raised r); [reflexivity|].
  now destruct (save_open_figure d (stdout r) (after r)).
Qed.

End ExecutorFacts.

(* ================================================================== *)
(** * [execute_python_code]: outcome, working directory, search path *)

(** Every call that runs the submitted code and at whose end the prior
    working directory still exists and [sys.path] is a list: what it gives
    back, and the search path it leaves. *)
Lemma execute_restoring (P : Platform) (code : string)
      (file_path : option string) (w : World) (l : list string) :
  can_start w = true ->
  fs_isdir (fs (after (code_run P code file_path w))) (cwd w) = true ->
  sys_path (after (code_run P code file_path w)) = PathList l ->
  let r := code_run P code file_path w in
  fst (execute_python_code P code file_path w)
  = match raised r with
    | Some e => handle P (inl e)
    | None =>
        Returned (assemble (stderr r)
                    (fst (save_open_figure (scratch_dir P w) (stdout r)
                            (after r))))
    end
  /\ sys_path (snd (execute_python_code P code file_path w))
     = PathList (remove_first (scratch_dir P w) l).
Proof.
  intros Hs Hdir Hl r. rewrite (execute_run P code file_path w Hs).
  fold r. fold r in Hdir, Hl.
  destruct (raised r) as [e|].
  - now apply finally_restores.
  - apply finally_restores.
    + now rewrite save_open_figure_isdir.
    + now rewrite save_open_figure_sys_path.
Qed.

(** The same calls when [sys.path] is [None] at their end: the membership
    test of [finally] raises, whatever was pending. *)
Lemma execute_no_list (P : Platform) (code : string)
      (file_path : option string) (w : World) :
  can_start w = true ->
  fs_isdir (fs (after (code_run P code file_path w))) (cwd w) = true ->
  sys_path (after (code_run P code file_path w)) = PathNone ->
  fst (execute_python_code P code file_path w) = Raises not_iterable.
Proof.
  intros Hs Hdir Hl. rewrite (execute_run P code file_path w Hs).
  destruct (raised (code_run P code file_path w)) as [e|].
  - now apply finally_no_list.
  - apply finally_no_list.
    + now rewrite save_open_figure_isdir.
    + now rewrite save_open_figure_sys_path.
Qed.



(** An exception outside [Exception] leaves the call. *)
Lemma execute_propagates (P : Platform) (code : string)
      (file_path : option string) (w : World) (e : exn) :
  can_start w = true ->
  raised (code_run P code file_path w) = Some e ->
  exn_is_Exception e = false ->
  fs_isdir (fs (after (code_run P code file_path w))) (cwd w) = true ->
  is_list (sys_path (after (code_run P code file_path w))) = true ->
  fst (execute_python_code P code file_path w) = Raises e.
Proof.
  intros Hs Er He Hdir Hlist.
  apply is_list_spec in Hlist as [l Hl].
  destruct (execute_restoring P code file_path w l Hs Hdir Hl) as (-> & _).
  rewrite Er. unfold handle. now rewrite He.
Qed.

(** An exception whose [__str__] raises is caught, and what [__str__]
    raised leaves the call in its place. *)
Lemma execute_str_raises (P : Platform) (code : string)
      (file_path : option string) (w : World) (e e' : exn) :
  can_start w = true ->
  raised (code_run P code file_path w) = Some e ->
  exn_is_Exception e = true ->
  exn_str e = StrRaises e' ->
  fs_isdir (fs (after (code_run P code file_path w))) (cwd w) = true ->
  is_list (sys_path (after (code_run P code file_path w))) = true ->
  fst (execute_python_code P code file_path w) = Raises e'.
Proof.
  intros Hs Er He Hstr Hdir Hlist.
  apply is_list_spec in Hlist as [l Hl].
  destruct (execute_restoring P code file_path w l Hs Hdir Hl) as (-> & _).
  rewrite Er. unfold handle. now rewrite He, Hstr.
Qed.


(** When the prior working directory is gone, [finally] raises and nothing
    is restored: the process stays where the submitted code left it and
    the scratch directory stays on the search path. *)
Lemma execute_not_restoring (P : Platform) (code : string)
      (file_path : option string) (w : World) :
  can_start w = true ->
  fs_isdir (fs (after (code_run P code file_path w))) (cwd w) = false ->
  let r := code_run P code file_path w in
  fst (execute_python_code P code file_path w)
  = Raises (FileNotFoundError (cwd w))
  /\ cwd (snd (execute_python_code P code file_path w)) = cwd (after r)
  /\ sys_path (snd (execute_python_code P code file_path w))
     = sys_path (after r).
Proof.
  intros Hs Hdir r. rewrite (execute_run P code file_path w Hs).
  fold r. fold r in Hdir.
  destruct (raised r) as [e|].
  - now rewrite finally_fails.
  - rewrite finally_fails by now rewrite save_open_figure_isdir.
    cbn [fst snd]. rewrite save_open_figure_sys_path.
    repeat split. unfold save_open_figure.
    destruct (fignums (after r)); [reflexivity|].
    now destruct (fs_write _ _ _).
Qed.



(* ================================================================== *)
(** * The theorems on concrete inputs *)

Lemma clean_without_block_witness :
  _clean_code_for_execution "x = 1" = "x = 1"
  /\ _clean_code_for_execution "" = "".
Proof. apply (clean_without_block "x = 1"). reflexivity. Defined.

(** C5, as stated, fails: an input without a fence is not trimmed. *)
Lemma clean_does_not_trim :
  has_block "  x = 1 " = false
  /\ _clean_code_for_execution "  x = 1 " <> strip "  x = 1 ".
Proof. split; [reflexivity | vm_compute; discriminate]. Qed.

Lemma clean_first_block_witness :
  _clean_code_for_execution
    (("Here is the code:" ++ chr nl)
     ++ fenced "python" ("print(2+2)" ++ chr nl) ++ " Done.")
  = strip ("print(2+2)" ++ chr nl)
  /\ forall mid tag2 body2 post,
       _clean_code_for_execution
         (("Here is the code:" ++ chr nl)
          ++ fenced "python" ("print(2+2)" ++ chr nl)
          ++ mid ++ fenced tag2 body2 ++ post)
       = strip ("print(2+2)" ++ chr nl).
Proof.
  apply (clean_first_block ("Here is the code:" ++ chr nl) "python"
           ("print(2+2)" ++ chr nl) " Done.").
  - right; right; reflexivity.
  - reflexivity.
  - reflexivity.
Defined.

(** C4, as stated, fails: a block tagged [javascript] does not give its
    trimmed body. *)
Lemma clean_other_tag_not_body :
  _clean_code_for_execution (fenced "javascript" ("foo" ++ chr nl))
  <> strip ("foo" ++ chr nl).
Proof. vm_compute. discriminate. Qed.

Lemma clean_keeps_other_tag_witness :
  _clean_code_for_execution
    ("" ++ fenced "javascript" ("foo" ++ chr nl) ++ "")
  = strip ("javascript" ++ chr nl ++ "foo" ++ chr nl)
  /\ startswith "javascript"
       (_clean_code_for_execution
          ("" ++ fenced "javascript" ("foo" ++ chr nl) ++ ""))
     = true.
Proof.
  apply (clean_keeps_other_tag "" "javascript" ("foo" ++ chr nl) "").
  - discriminate.
  - reflexivity.
  - reflexivity.
  - reflexivity.
  - reflexivity.
Defined.

(** C10, as stated, fails: [python3] is neither [python] nor [py], and the
    result does not begin with it. *)
Lemma clean_python3_tag :
  "python3" <> "python" /\ "python3" <> "py"
  /\ _clean_code_for_execution (fenced "python3" ("print(1)" ++ chr nl))
     = "3" ++ chr nl ++ "print(1)"
  /\ startswith "python3"
       (_clean_code_for_execution (fenced "python3" ("print(1)" ++ chr nl)))
     = false.
Proof. repeat split; try discriminate; reflexivity. Qed.


(** What the result is for [raise ValueError('boom')]. *)
Lemma raise_boom_narrative :
  fst (execute_python_code Sample.platform Sample.py_raise_boom None
         Sample.w0)
  = Returned ("Code execution error: boom" ++ chr nl ++ chr nl
              ++ "Traceback (most recent call last):" ++ chr nl
              ++ "ValueError: boom" ++ chr nl).
Proof. vm_compute. reflexivity. Qed.


(** An exception that derives from [Exception] and whose [__str__]
    raises: what [__str__] raised leaves the call. *)
Lemma bad_str_escapes :
  raised (code_run Sample.platform Sample.py_bad_str None Sample.w0)
  = Some Sample.Bad
  /\ exn_is_Exception Sample.Bad = true
  /\ fst (execute_python_code Sample.platform Sample.py_bad_str None
            Sample.w0)
     = Raises (RuntimeError "no text").
Proof. vm_compute. repeat split. Qed.

(** Code that completes after [sys.path = None]: the membership test of
    [finally] raises; the working directory is back and [sys.path] stays
    [None]. *)
Lemma rebound_path_escapes :
  let call :=
    execute_python_code Sample.platform Sample.py_path_none None Sample.w0 in
  raised (code_run Sample.platform Sample.py_path_none None Sample.w0) = None
  /\ fst call = Raises not_iterable
  /\ cwd (snd call) = "/app"
  /\ sys_path (snd call) = PathNone
  /\ fs_exists (fs (snd call)) (code_file Sample.platform Sample.w0) = false.
Proof. vm_compute. repeat split. Qed.

(** A call made once [sys.path] is [None]: the submitted code is not
    run, the [AttributeError] of [sys.path.insert] is caught, and the
    membership test of [finally] raises. *)
Lemma no_path_escapes :
  can_start Sample.w_no_path = false
  /\ fst (execute_python_code Sample.platform Sample.py_print_hello None
            Sample.w_no_path)
     = Raises not_iterable
  /\ cwd (snd (execute_python_code Sample.platform Sample.py_print_hello None
                 Sample.w_no_path))
     = "/app".
Proof. vm_compute. repeat split. Qed.

(** A call made in a process whose working directory is gone:
    [os.getcwd()] raises before [try]; the scratch directory is made and
    stays. *)
Lemma missing_cwd_escapes :
  can_start Sample.w_gone = false
  /\ fst (execute_python_code Sample.platform Sample.py_print_hello None
            Sample.w_gone)
     = Raises (mkExn "FileNotFoundError" true
                 (Text "[Errno 2] No such file or directory"))
  /\ fs_isdir (fs (snd (execute_python_code Sample.platform
                          Sample.py_print_hello None Sample.w_gone)))
              (scratch_dir Sample.platform Sample.w_gone) = true.
Proof. vm_compute. repeat split. Qed.




(** Code that prints hello and does nothing else gives exactly that
    line. *)
Lemma print_hello :
  fst (execute_python_code Sample.platform Sample.py_print_hello None
         Sample.w0)
  = Returned ("hello" ++ chr nl).
Proof. vm_compute. reflexivity. Qed.

(** Code that writes a warning and prints gives the narrative. *)
Lemma warn_narrative :
  fst (execute_python_code Sample.platform Sample.py_warn None Sample.w0)
  = Returned ("Code execution error:" ++ chr nl ++ "warn" ++ chr nl ++ chr nl
              ++ "Output (if any):" ++ chr nl ++ "done" ++ chr nl).
Proof. vm_compute. reflexivity. Qed.




(** C8: for code that creates [chart.png] in the scratch directory and
    prints "saved to chart.png", the call returns that line and the file
    exists, but discovery on the result finds nothing: the name is resolved
    against the restored working directory, and that directory is the one
    scanned. *)
Theorem chart_not_discovered :
  let '(o, w1) := execute_python_code Sample.platform Sample.py_chart None
                    Sample.w0 in
  o = Returned ("saved to chart.png" ++ chr nl)
  /\ fs_exists (fs w1)
       (join (scratch_dir Sample.platform Sample.w0) "chart.png") = true
  /\ text_matches ("saved to chart.png" ++ chr nl)
     = ["chart.png"]
  /\ resolve w1 "chart.png" = "/app/chart.png"
  /\ _extract_image_paths w1 ("saved to chart.png" ++ chr nl) = [].
Proof. vm_compute. repeat split. Qed.

(* ================================================================== *)
(** * Artifact discovery *)

Section UniqueFacts.

Lemma mem_In x l : mem x l = true <-> In x l.
Proof.
unfold mem. rewrite existsb_exists. split.
- intros (y & Hy & E). apply String.eqb_eq in E. now subst.
- intros H. exists x. split; [exact H | apply String.eqb_refl].
Qed.

Lemma unique_snoc l x :
unique (l ++ [x])%list
= if mem x (unique l) then unique l else (unique l ++ [x])%list.
Proof. unfold unique. now rewrite fold_left_app. Qed.

Lemma unique_In l x : In x (unique l) <-> In x l.
Proof.
induction l as [|y l IH] using rev_ind; [reflexivity|].
rewrite unique_snoc, in_app_iff.
destruct (mem y (unique l)) eqn:E.
- apply mem_In in E. rewrite IH. cbn [In]. split; [tauto|].
  intros [H|[<-|[]]]; [exact H | now apply IH].
- rewrite in_app_iff, IH. reflexivity.
Qed.

Lemma NoDup_snoc (a : list string) x :
NoDup a -> ~ In x a -> NoDup (a ++ [x])%list.
Proof.
induction a as [|y a IH]; intros Ha Hx.
- constructor; [intros [] | constructor].
- inversion Ha as [|? ? Hy Ha']; subst. cbn [app]. constructor.
  + rewrite in_app_iff. intros [H|[H|[]]]; [contradiction|].
    subst. apply Hx. now left.
  + apply IH; [exact Ha'|]. intros H. apply Hx. now right.
Qed.

Lemma unique_NoDup l : NoDup (unique l).
Proof.
induction l as [|y l IH] using rev_ind; [constructor|].
rewrite unique_snoc. destruct (mem y (unique l)) eqn:E; [exact IH|].
apply NoDup_snoc; [exact IH|]. intros H. apply mem_In in H. congruence.
Qed.

Lemma index_of_app_in x l l' :
In x l -> index_of x (l ++ l')%list = index_of x l.
Proof.
induction l as [|y l IH]; intros H; [contradiction|].
cbn [app index_of]. destruct (String.eqb x y) eqn:E; [reflexivity|].
f_equal. apply IH. destruct H as [H|H]; [|exact H].
subst. now rewrite String.eqb_refl in E.
Qed.

Lemma index_of_app_notin x l l' :
~ In x l -> index_of x (l ++ l')%list = length l + index_of x l'.
Proof.
induction l as [|y l IH]; intros H; [reflexivity|].
cbn [app index_of length]. destruct (String.eqb x y) eqn:E.
- apply String.eqb_eq in E. subst. exfalso. apply H. now left.
- cbn [Nat.add]. f_equal. apply IH. intros H'. apply H. now right.
Qed.

Lemma index_of_lt x l : In x l -> index_of x l < length l.
Proof.
induction l as [|y l IH]; intros H; [contradiction|].
cbn [index_of length]. destruct (String.eqb x y) eqn:E; [lia|].
apply -> Nat.succ_lt_mono. apply IH. destruct H as [H|H]; [|exact H].
subst. now rewrite String.eqb_refl in E.
Qed.

Lemma StronglySorted_snoc (R : string -> string -> Prop) a x :
StronglySorted R a -> (forall p, In p a -> R p x) ->
StronglySorted R (a ++ [x])%list.
Proof.
induction 1 as [|y a Ha IH Hy]; intros Hx; cbn [app].
- constructor; constructor.
- constructor.
  + apply IH. intros p Hp. apply Hx. now right.
  + apply Forall_app. split; [exact Hy|].
    constructor; [|constructor]. apply Hx. now left.
Qed.

Lemma StronglySorted_transfer (R R' : string -> string -> Prop) a :
StronglySorted R a ->
(forall p q, In p a -> In q a -> R p q -> R' p q) ->
StronglySorted R' a.
Proof.
induction 1 as [|y a Ha IH Hy]; intros H; constructor.
- apply IH. intros p q Hp Hq. apply H; now right.
- rewrite Forall_forall in *. intros q Hq.
  apply H; [now left | now right | now apply Hy].
Qed.

(** The paths come out in the order in which they were first seen. *)
Lemma unique_first_seen l :
StronglySorted (fun p q => index_of p l < index_of q l) (unique l).
Proof.
induction l as [|y l IH] using rev_ind; [constructor|].
rewrite unique_snoc. destruct (mem y (unique l)) eqn:E.
- apply (StronglySorted_transfer _ _ _ IH). intros p q Hp Hq Hlt.
  apply (proj1 (unique_In _ _)) in Hp. apply (proj1 (unique_In _ _)) in Hq.
  now rewrite (index_of_app_in _ _ _ Hp), (index_of_app_in _ _ _ Hq).
- assert (Hy : ~ In y l).
  { intros H. apply (proj2 (unique_In _ _)), (proj2 (mem_In _ _)) in H.
    congruence. }
  apply StronglySorted_snoc.
  + apply (StronglySorted_transfer _ _ _ IH). intros p q Hp Hq Hlt.
    apply (proj1 (unique_In _ _)) in Hp. apply (proj1 (unique_In _ _)) in Hq.
  now rewrite (index_of_app_in _ _ _ Hp), (index_of_app_in _ _ _ Hq).
  + intros p Hp. apply (proj1 (unique_In _ _)) in Hp.
    rewrite (index_of_app_in _ _ _ Hp), (index_of_app_notin _ _ _ Hy).
    pose proof (index_of_lt _ _ Hp). lia.
Qed.

End UniqueFacts.

Lemma normpath_isabs p : isabs p = true -> isabs (normpath p) = true.
Proof.
  unfold isabs. intros H. destruct p as [|c p]; [discriminate|].
  unfold normpath. cbn [String.eqb]. rewrite H.
  set (comps := fold_left _ _ _).
  destruct (startswith "//" (String c p) && negb (startswith "///" (String c p)));
    reflexivity.
Qed.

Lemma join_isabs a b : isabs a = true -> isabs (join a b) = true.
Proof.
  unfold isabs, join. intros H.
  destruct (startswith "/" b) eqn:E; [exact E|].
  destruct (String.eqb a "" || endswith "/" a);
    now apply startswith_app_l.
Qed.

Lemma resolve_isabs w m : isabs (cwd w) = true -> isabs (resolve w m) = true.
Proof.
  intros H. unfold resolve.
  destruct (isabs (strip m)) eqn:E; [exact E|].
  unfold abspath. rewrite E. now apply normpath_isabs, join_isabs.
Qed.

Lemma scan_dir_In w d files p :
  In p (scan_dir w d files) ->
  (isabs d = true -> isabs p = true) /\ fs_exists (fs w) p = true.
Proof.
  induction files as [|f files IH]; [contradiction|].
  cbn [scan_dir]. destruct (has_image_ext f); [|exact IH].
  destruct (fs_getmtime (fs w) (join d f)) as [t|] eqn:Et; [|contradiction].
  destruct (recent w t); [|exact IH].
  intros [<-|H]; [|now apply IH].
  split; [apply join_isabs|].
  unfold fs_getmtime in Et. unfold fs_exists.
  now destruct (fs_lookup (fs w) (join d f)).
Qed.

(** C9: for every result text (and an absolute working directory), the
    list discovery returns has no duplicates, holds exactly the paths the
    two passes found, in the order in which they were first seen; every
    path in it is absolute and exists, so a match of a pattern whose
    resolved path does not exist is not in it; and it is empty when no
    pattern matches and the directory holds no recent image. *)
Theorem extract_image_paths_spec (w : World) (execution_result : string) :
  isabs (cwd w) = true ->
  let found := (pattern_paths w execution_result ++ recent_images w)%list in
  let result := _extract_image_paths w execution_result in
  NoDup result
  /\ (forall p, In p result <-> In p found)
  /\ StronglySorted (fun p q => index_of p found < index_of q found) result
  /\ Forall (fun p => isabs p = true) result
  /\ Forall (fun p => fs_exists (fs w) p = true) result
  /\ (forall m, In m (text_matches execution_result) ->
                fs_exists (fs w) (resolve w m) = false ->
                ~ In (resolve w m) result)
  /\ (text_matches execution_result = [] -> recent_images w = [] ->
      result = []).
Proof.
  intros Habs found result.
  assert (Hin : forall p, In p result <-> In p found)
    by (intros p; apply unique_In).
  assert (Hex : forall p, In p result -> fs_exists (fs w) p = true).
  { intros p Hp. apply Hin in Hp. unfold found in Hp.
    apply in_app_iff in Hp as [Hp|Hp].
    - unfold pattern_paths in Hp. now apply filter_In in Hp.
    - unfold recent_images in Hp.
      destruct (fs_listdir (fs w) (cwd w)); [|contradiction].
      now apply scan_dir_In in Hp. }
  split; [apply unique_NoDup|]. split; [exact Hin|].
  split; [apply unique_first_seen|]. split; [|split; [|split]].
  - apply Forall_forall. intros p Hp. apply Hin in Hp. unfold found in Hp.
    apply in_app_iff in Hp as [Hp|Hp].
    + unfold pattern_paths in Hp. apply filter_In in Hp as [Hp _].
      apply in_map_iff in Hp as (m & <- & _). now apply resolve_isabs.
    + unfold recent_images in Hp.
      destruct (fs_listdir (fs w) (cwd w)); [|contradiction].
      apply scan_dir_In in Hp. now apply Hp.
  - apply Forall_forall. exact Hex.
  - intros m _ Hm Hp. apply Hex in Hp. congruence.
  - intros Hm Hr. unfold result, _extract_image_paths, pattern_paths.
    now rewrite Hm, Hr.
Qed.

Lemma extract_image_paths_spec_witness :
  isabs (cwd Sample.w_chart) = true
  /\ NoDup (_extract_image_paths Sample.w_chart
              ("saved to chart.png" ++ chr nl)).
Proof.
  split; [reflexivity|].
  exact (proj1 (extract_image_paths_spec Sample.w_chart
                  ("saved to chart.png" ++ chr nl) eq_refl)).
Defined.

(** A chart in the working directory is found by both passes and listed
    once. *)
Lemma extract_chart_in_cwd :
  _extract_image_paths Sample.w_chart ("saved to chart.png" ++ chr nl)
  = ["/app/chart.png"].
Proof. vm_compute. reflexivity. Qed.

(** Nothing saved, nothing found. *)
Lemma extract_nothing :
  _extract_image_paths Sample.w0 ("4" ++ chr nl) = [].
Proof. vm_compute. reflexivity. Qed.

(** Paths named in an existing directory are found, once each, in the
    order of their first mention; a name that does not exist is dropped. *)
Lemma extract_mentions :
  _extract_image_paths Sample.w_chart
    ("Created logo.png, saved to chart.png and saved as missing.png; "
     ++ "output to /app/../app/logo.png")
  = ["/app/chart.png"; "/app/logo.png"; "/app/../app/logo.png"].
Proof. vm_compute. reflexivity. Qed.


(* ================================================================== *)
(** * [execute_python_code]: what else a call does and leaves *)

(** The normalizer applied twice (shared with the proofs below). *)
Lemma clean_clean (x : string) :
  _clean_code_for_execution (_clean_code_for_execution x)
  = _clean_code_for_execution x.
Proof.
  rewrite (clean_code_spec x).
  destruct (split_fence x) as [[pre y]|] eqn:E;
    [|unfold _clean_code_for_execution; rewrite findall_no_block;
      [reflexivity | unfold has_block; now rewrite E]].
  destruct (split_fence (lstrip (strip_tag y))) as [[b r]|] eqn:Ey.
  - unfold _clean_code_for_execution at 1.
    rewrite findall_no_block; [reflexivity|].
    apply no_fence_no_block, contains_fence_strip.
    exact (split_fence_body _ _ _ Ey).
  - unfold _clean_code_for_execution. rewrite findall_no_block; [reflexivity|].
    unfold has_block. rewrite E. apply split_fence_none in Ey.
    now rewrite contains_fence_lstrip, contains_fence_strip_tag in Ey.
Qed.

(** X1: a call on the normalized code is the same call: the outcome and
    the state left are those of the call on the code as submitted. *)
Theorem execute_of_clean_code (P : Platform) (code : string)
        (file_path : option string) (w : World) :
  execute_python_code P (_clean_code_for_execution code) file_path w
  = execute_python_code P code file_path w.
Proof. unfold execute_python_code. now rewrite clean_clean. Qed.

Section CallFacts.
Variable P : Platform.
Variable code : string.
Variable file_path : option string.
Variable w : World.
Hypothesis Hstart : can_start w = true.

Let r := code_run P code file_path w.
Let w' := snd (execute_python_code P code file_path w).

Lemma remove_quietly_set_cwd f c w2 :
  fs (remove_quietly f (set_cwd c w2)) = fs (remove_quietly f w2)
  /\ fignums (remove_quietly f (set_cwd c w2)) = fignums w2.
Proof.
  unfold remove_quietly. destruct f as [f|]; [|now split].
  cbn [fs now set_cwd]. now destruct (fs_remove (fs w2) f (now w2)).
Qed.

Lemma finally_fs cwd0 d f pending w2 :
  fs (snd (finally_block cwd0 d f pending w2))
  = if fs_isdir (fs w2) cwd0 then fs (remove_quietly f w2) else fs w2.
Proof.
  unfold finally_block, os_chdir.
  destruct (fs_isdir (fs w2) cwd0); [|reflexivity].
  destruct (remove_quietly_set_cwd f cwd0 w2) as [H _].
  destruct (sys_path (remove_quietly f (set_cwd cwd0 w2))) as [l|];
    [destruct (mem d l)|]; exact H.
Qed.

Lemma finally_fignums cwd0 d f pending w2 :
  fignums (snd (finally_block cwd0 d f pending w2)) = fignums w2.
Proof.
  unfold finally_block, os_chdir.
  destruct (fs_isdir (fs w2) cwd0); [|reflexivity].
  destruct (remove_quietly_set_cwd f cwd0 w2) as [_ H].
  destruct (sys_path (remove_quietly f (set_cwd cwd0 w2))) as [l|];
    [destruct (mem d l)|]; exact H.
Qed.

(** The file system a call leaves. *)
Lemma execute_fs :
  fs w'
  = if fs_isdir (fs (after r)) (cwd w)
    then fs (remove_quietly (Some (code_file P w))
               (before_finally P code file_path w))
    else fs (before_finally P code file_path w).
Proof.
  unfold w', before_finally. rewrite (execute_run P code file_path w Hstart).
  fold r. destruct (raised r) as [e|]; rewrite finally_fs.
  - reflexivity.
  - now rewrite save_open_figure_isdir.
Qed.

(** The open figures a call leaves. *)
Lemma execute_fignums :
  fignums w' = fignums (before_finally P code file_path w).
Proof.
  unfold w', before_finally. rewrite (execute_run P code file_path w Hstart).
  fold r. destruct (raised r) as [e|]; now rewrite finally_fignums.
Qed.

Lemma before_finally_isdir q :
  fs_isdir (fs (before_finally P code file_path w)) q
  = fs_isdir (fs (after r)) q.
Proof.
  unfold before_finally. fold r. destruct (raised r); [reflexivity|].
  apply save_open_figure_isdir.
Qed.

Lemma remove_quietly_isdir f w2 q :
  fs_isdir (fs (remove_quietly f w2)) q = fs_isdir (fs w2) q.
Proof.
  unfold remove_quietly. destruct f as [f|]; [|reflexivity].
  destruct (fs_remove (fs w2) f (now w2)) eqn:E; [|reflexivity].
  exact (fs_remove_isdir _ _ _ _ _ E).
Qed.

(** X2: once the submitted code has run, a call neither creates nor
    removes a directory: the scratch directory, like every other directory
    the code left, is still there after the call. *)
Theorem directories_untouched (q : string) :
  fs_isdir (fs w') q = fs_isdir (fs (after r)) q.
Proof.
  rewrite execute_fs.
  destruct (fs_isdir (fs (after r)) (cwd w)).
  - now rewrite remove_quietly_isdir, before_finally_isdir.
  - apply before_finally_isdir.
Qed.








(** X6: when the submitted code raises, the figures it left open are
    still open after the call: the block that saves and closes them is not
    reached. *)
Theorem figures_survive_exception (e : exn) :
  raised r = Some e -> fignums w' = fignums (after r).
Proof.
  intros Er. rewrite execute_fignums. unfold before_finally. fold r.
  now rewrite Er.
Qed.

End CallFacts.


(* ================================================================== *)
(** * [ChatMemory] *)

Section ChatMemoryFacts.
Import ChatMemory.

Lemma slice_from_skipn {A : Type} (start : Z) (l : list A) :
  slice_from start l
  = skipn (Z.to_nat (if (start <? 0)%Z
                     then Z.max (start + Z.of_nat (length l)) 0
                     else start)) l.
Proof.
  unfold slice_from. destruct (start <? 0)%Z eqn:E; [reflexivity|].
  apply Z.ltb_ge in E.
  destruct (Z.le_gt_cases start (Z.of_nat (length l))) as [H|H].
  - now rewrite Z.min_l.
  - rewrite Z.min_r by lia. rewrite Nat2Z.id, skipn_all.
    symmetry. apply skipn_all2. lia.
Qed.

Lemma add_message_max_history m self :
  max_history (_add_message m self) = max_history self.
Proof.
  unfold _add_message. now destruct (_ >? _)%Z.
Qed.

(** One more message in a memory that holds the last [cap] of [p]. *)
Lemma add_message_window (cap : Z) (p : list message) m self :
  (1 <= cap)%Z ->
  max_history self = cap ->
  messages self = skipn (length p - Z.to_nat cap) p ->
  messages (_add_message m self)
  = skipn (length (p ++ [m]) - Z.to_nat cap) (p ++ [m]).
Proof.
  intros Hcap Hmax Hmsg.
  assert (R : skipn (length (p ++ [m]) - Z.to_nat cap) (p ++ [m])
              = (skipn (length p + 1 - Z.to_nat cap) p ++ [m])%list).
  { rewrite length_app, skipn_app. cbn [length].
    replace (length p + 1 - Z.to_nat cap - length p) with 0 by lia.
    reflexivity. }
  rewrite R. unfold _add_message. rewrite Hmax, Hmsg.
  assert (L : length (skipn (length p - Z.to_nat cap) p ++ [m])
              = Nat.min (length p) (Z.to_nat cap) + 1).
  { rewrite length_app, length_skipn. cbn [length]. lia. }
  rewrite L.
  destruct (_ >? cap)%Z eqn:E; cbn [messages].
  - apply Z.gtb_lt in E. rewrite slice_from_skipn.
    assert (Hn : (- cap <? 0)%Z = true) by (apply Z.ltb_lt; lia).
    rewrite Hn, L.
    replace (Z.to_nat (Z.max (- cap + Z.of_nat (Nat.min (length p) (Z.to_nat cap) + 1)) 0))
      with 1 by lia.
    rewrite skipn_app, skipn_skipn, length_skipn.
    replace (1 - (length p - (length p - Z.to_nat cap))) with 0 by lia.
    rewrite skipn_0. f_equal. f_equal. lia.
  - assert (E' : (Z.of_nat (Nat.min (length p) (Z.to_nat cap) + 1) <= cap)%Z)
      by (destruct (Z.gtb_spec (Z.of_nat (Nat.min (length p) (Z.to_nat cap) + 1)) cap);
          [discriminate | assumption]).
    replace (length p - Z.to_nat cap) with 0 by lia.
    replace (length p + 1 - Z.to_nat cap) with 0 by lia.
    reflexivity.
Qed.

Lemma add_all_window (cap : Z) (ms p : list message) self :
  (1 <= cap)%Z ->
  max_history self = cap ->
  messages self = skipn (length p - Z.to_nat cap) p ->
  messages (add_all ms self)
  = skipn (length (p ++ ms) - Z.to_nat cap) (p ++ ms)
  /\ max_history (add_all ms self) = cap.
Proof.
  intros Hcap. revert p self. induction ms as [|m ms IH]; intros p self Hmax Hmsg.
  - rewrite app_nil_r. now split.
  - cbn [add_all fold_left].
    replace (p ++ m :: ms)%list with ((p ++ [m]) ++ ms)%list
      by now rewrite <- app_assoc.
    apply IH.
    + now rewrite add_message_max_history.
    + now apply add_message_window.
Qed.

(** X8: a memory created with a limit of at least one message holds,
    after any number of additions, exactly the most recent messages up to
    that limit, oldest first. *)
Theorem memory_keeps_most_recent (cap : Z) (ms : list message) :
  (1 <= cap)%Z ->
  messages (add_all ms (init cap)) = skipn (length ms - Z.to_nat cap) ms
  /\ length (messages (add_all ms (init cap)))
     = Nat.min (length ms) (Z.to_nat cap).
Proof.
  intros Hcap.
  destruct (add_all_window cap ms [] (init cap) Hcap eq_refl eq_refl)
    as [H _].
  cbn [app] in H. split; [exact H|]. rewrite H, length_skipn. lia.
Qed.

(** X9: whatever a memory with a limit of at least one holds, after one
    more message it holds at most the limit, the new message is its last
    one, and what it holds is the end of the old messages followed by the
    new one. *)
Theorem add_message_bounded m self :
  (1 <= max_history self)%Z ->
  (Z.of_nat (length (messages (_add_message m self))) <= max_history self)%Z
  /\ (exists kept, messages (_add_message m self) = kept ++ [m])%list
  /\ (exists dropped,
        messages self ++ [m] = dropped ++ messages (_add_message m self))%list.
Proof.
  intros Hcap. unfold _add_message.
  destruct (_ >? _)%Z eqn:E; cbn [messages].
  - apply Z.gtb_lt in E. rewrite slice_from_skipn.
    assert (Hn : (- max_history self <? 0)%Z = true) by (apply Z.ltb_lt; lia).
    rewrite Hn. rewrite length_app in *. cbn [length] in *.
    set (k := Z.to_nat (Z.max (- max_history self
                               + Z.of_nat (length (messages self) + 1)) 0)).
    assert (Hk : k <= length (messages self)) by lia.
    rewrite skipn_app.
    replace (k - length (messages self)) with 0 by lia. rewrite skipn_0.
    split; [|split].
    + rewrite length_app, length_skipn. cbn [length]. lia.
    + now exists (skipn k (messages self)).
    + exists (firstn k (messages self)).
      now rewrite app_assoc, firstn_skipn.
  - assert (E' : (Z.of_nat (length (messages self ++ [m])) <= max_history self)%Z)
      by (destruct (Z.gtb_spec (Z.of_nat (length (messages self ++ [m])))
                      (max_history self)); [discriminate | assumption]).
    split; [exact E'|]. split; [now exists (messages self) | now exists []].
Qed.

Lemma add_message_zero m self :
  max_history self = 0%Z ->
  messages (_add_message m self) = (messages self ++ [m])%list.
Proof.
  intros H0. unfold _add_message. rewrite H0.
  destruct (_ >? 0)%Z; cbn [messages]; [|reflexivity].
  now rewrite slice_from_skipn.
Qed.

(** X10: with a limit of zero nothing is ever dropped: the memory holds
    every message added to it. *)
Theorem zero_limit_keeps_everything (ms : list message) self :
  max_history self = 0%Z ->
  messages (add_all ms self) = (messages self ++ ms)%list.
Proof.
  revert self. induction ms as [|m ms IH]; intros self H0.
  - now rewrite app_nil_r.
  - cbn [add_all fold_left].
    change (fold_left _ ms ?s) with (add_all ms s).
    rewrite IH by now rewrite add_message_max_history.
    now rewrite (add_message_zero _ _ H0), <- app_assoc.
Qed.

Lemma last_n_skipn (n : Z) self :
  get_last_n_messages n self
  = if (0 <? n)%Z
    then skipn (length (messages self) - Z.to_nat n) (messages self)
    else skipn (Z.to_nat (- n)) (messages self).
Proof.
  unfold get_last_n_messages.
  destruct (n <? _)%Z eqn:E.
  - apply Z.ltb_lt in E. rewrite slice_from_skipn.
    destruct (0 <? n)%Z eqn:E0.
    + apply Z.ltb_lt in E0.
      assert (Hn : (- n <? 0)%Z = true) by (apply Z.ltb_lt; lia).
      rewrite Hn. f_equal. lia.
    + apply Z.ltb_ge in E0.
      assert (Hn : (- n <? 0)%Z = false) by (apply Z.ltb_ge; lia).
      now rewrite Hn.
  - apply Z.ltb_ge in E.
    assert (E0 : (0 <? n)%Z = true \/ messages self = []).
    { destruct (messages self); [now right|]. left. apply Z.ltb_lt.
      cbn [length] in E. lia. }
    destruct E0 as [E0|E0].
    + rewrite E0. replace (_ - _) with 0 by lia. reflexivity.
    + rewrite E0. destruct (0 <? n)%Z; now rewrite skipn_nil.
Qed.

(** X11: [get_last_n_messages n] gives the last [n] messages (all of them
    when there are fewer) for a positive [n]; for [n = 0] it gives all
    messages, and for a negative [n] all but the first [-n]. *)
Theorem get_last_n_messages_spec (n : Z) self :
  get_last_n_messages n self
  = if (0 <? n)%Z
    then skipn (length (messages self) - Z.to_nat n) (messages self)
    else skipn (Z.to_nat (- n)) (messages self).
Proof. apply last_n_skipn. Qed.

Lemma fold_format (l : list message) (acc : string) :
  fold_left format_message l acc
  = acc ++ fold_right append EmptyString (map history_line l).
Proof.
  revert acc. induction l as [|m l IH]; intros acc; cbn [fold_left map fold_right].
  - now rewrite app_nil_r_s.
  - rewrite IH. unfold history_line, format_message.
    cbn [append]. now rewrite !app_assoc_s.
Qed.

(** X12: for a memory with a limit of at least one, filled from empty,
    the history formatted with a positive [max_messages] is the
    concatenation of the lines ("Role: content" and an empty line) of the
    most recent messages, as many as the smaller of the two limits allows;
    with [max_messages] zero or absent no second limit applies. *)
Theorem formatted_history_of_recent (cap k : Z) (ms : list message) :
  (1 <= cap)%Z -> (1 <= k)%Z ->
  get_formatted_history (Some k) (add_all ms (init cap))
  = fold_right append EmptyString
      (map history_line (skipn (length ms - Z.to_nat (Z.min k cap)) ms))
  /\ get_formatted_history (Some 0%Z) (add_all ms (init cap))
     = get_formatted_history None (add_all ms (init cap))
  /\ get_formatted_history None (add_all ms (init cap))
     = fold_right append EmptyString
         (map history_line (skipn (length ms - Z.to_nat cap) ms))
  /\ forall c, history_line (mkMessage user c)
               = "User: " ++ c ++ chr nl ++ chr nl
            /\ history_line (mkMessage assistant c)
               = "Assistant: " ++ c ++ chr nl ++ chr nl
            /\ history_line (mkMessage system c)
               = "System: " ++ c ++ chr nl ++ chr nl.
Proof.
  intros Hcap Hk.
  destruct (add_all_window cap ms [] (init cap) Hcap eq_refl eq_refl)
    as [H _].
  cbn [app] in H.
  split; [|split; [reflexivity|split]].
  - unfold get_formatted_history.
    assert (Hk0 : (k =? 0)%Z = false) by (apply Z.eqb_neq; lia).
    rewrite Hk0, last_n_skipn.
    assert (Hk1 : (0 <? k)%Z = true) by (apply Z.ltb_lt; lia).
    rewrite Hk1, H, length_skipn, skipn_skipn, fold_format. cbn [append].
    do 3 f_equal. lia.
  - unfold get_formatted_history. now rewrite H, fold_format.
  - intros c. repeat split.
Qed.

End ChatMemoryFacts.

(* ================================================================== *)
(** * [_enhance_report_with_images] *)

Lemma take_drop (k : nat) (s : string) : take k s ++ drop k s = s.
Proof.
  revert s; induction k as [|k IH]; intros s; [now destruct s|].
  destruct s as [|c s]; [reflexivity|]. cbn [take drop append].
  now rewrite IH.
Qed.

Lemma take_all (s : string) : take (String.length s) s = s.
Proof. induction s as [|c s IH]; [reflexivity|]. cbn. now rewrite IH. Qed.

Lemma drop_all (s : string) : drop (String.length s) s = "".
Proof. induction s as [|c s IH]; [reflexivity|]. exact IH. Qed.

Lemma take_app_more (a b : string) (n : nat) :
  take (String.length a + n) (a ++ b) = a ++ take n b.
Proof.
  induction a as [|c a IH]; [reflexivity|]. cbn. now rewrite IH.
Qed.

Lemma drop_app_more (a b : string) (n : nat) :
  drop (String.length a + n) (a ++ b) = drop n b.
Proof. induction a as [|c a IH]; [reflexivity|]. exact IH. Qed.

Lemma add_figures_acc (text : string) (i : nat) (imgs : list string) :
  add_figures text i imgs = text ++ add_figures "" i imgs.
Proof.
  revert text i. induction imgs as [|x imgs IH]; intros text i.
  - cbn. now rewrite app_nil_r_s.
  - cbn [add_figures]. rewrite IH, (IH ("" ++ _)). cbn [append].
    now rewrite app_assoc_s.
Qed.

Lemma figure_entry_reference (i : nat) (img : string) :
  contains (image_reference img) (figure_entry i img) = true.
Proof.
  apply contains_spec. unfold figure_entry, image_reference.
  exists ("### Figure " ++ str_of_nat (i + 1) ++ ": "
          ++ replace ".png" "" (replace "_" " " (basename img))
          ++ chr nl ++ chr nl).
  exists (chr nl ++ chr nl). now rewrite !app_assoc_s.
Qed.

Lemma add_figures_reference (text : string) (i : nat) (imgs : list string)
      (img : string) :
  In img imgs -> contains (image_reference img) (add_figures text i imgs) = true.
Proof.
  revert text i. induction imgs as [|x imgs IH]; intros text i H;
    [contradiction|].
  cbn [add_figures]. destruct H as [->|H]; [|now apply IH].
  rewrite add_figures_acc. apply contains_app_l, contains_app_r.
  apply figure_entry_reference.
Qed.

Lemma image_reference_mark (img : string) :
  contains "![" (image_reference img) = true.
Proof. reflexivity. Qed.

Lemma contains_trans (a b c : string) :
  contains a b = true -> contains b c = true -> contains a c = true.
Proof.
  intros Hab Hbc. apply contains_spec in Hbc as (u & v & ->).
  now apply contains_app_r, contains_app_l.
Qed.

(** Where a report is changed, figures are put in at one place. *)
Lemma enhance_shape (report : string) (imgs : list string) (dir : string) :
  imgs <> [] -> contains "![" report = false ->
  exists k text,
    _enhance_report_with_images report imgs dir
    = take k report ++ add_figures text 0 imgs ++ drop k report.
Proof.
  intros Hne Hmark. unfold _enhance_report_with_images.
  destruct imgs as [|x imgs]; [contradiction|]. rewrite Hmark.
  destruct (search viz_section_pattern report) as [[a b]|].
  - now exists b, (chr nl ++ chr nl).
  - destruct (search conclusion_pattern report) as [[a b]|].
    + eexists a, _. reflexivity.
    + eexists (String.length report), _.
      rewrite take_all, drop_all, app_nil_r_s. reflexivity.
Qed.

(** X13: enhancing a report a second time with the same images changes
    nothing. *)
Theorem enhance_idempotent (report : string) (imgs : list string)
        (dir1 dir2 : string) :
  _enhance_report_with_images
    (_enhance_report_with_images report imgs dir1) imgs dir2
  = _enhance_report_with_images report imgs dir1.
Proof.
  destruct imgs as [|x imgs]; [reflexivity|].
  destruct (contains "![" report) eqn:Hmark.
  - assert (H : _enhance_report_with_images report (x :: imgs) dir1 = report)
      by (unfold _enhance_report_with_images; now rewrite Hmark).
    rewrite H. unfold _enhance_report_with_images. now rewrite Hmark.
  - destruct (enhance_shape report (x :: imgs) dir1 ltac:(discriminate) Hmark)
      as (k & text & ->).
    assert (H : contains "![" (take k report ++ add_figures text 0 (x :: imgs)
                               ++ drop k report) = true).
    { apply contains_app_r, contains_app_l.
      apply (contains_trans _ (image_reference x));
        [apply image_reference_mark|].
      apply add_figures_reference. now left. }
    unfold _enhance_report_with_images at 1. now rewrite H.
Qed.

(** X14: the function never removes text from a report: its result is the
    report with one piece of text put in at some place; and when there are
    images and the report has no image reference yet, the result holds the
    reference of every image. *)
Theorem enhance_keeps_report (report : string) (imgs : list string)
        (dir : string) :
  (exists pre added post,
     report = pre ++ post
     /\ _enhance_report_with_images report imgs dir = pre ++ added ++ post)
  /\ (contains "![" report = false ->
      forall img, In img imgs ->
        contains (image_reference img)
                 (_enhance_report_with_images report imgs dir) = true).
Proof.
  destruct imgs as [|x imgs].
  - split; [|intros _ img []].
    exists report, "", "". cbn. now rewrite !app_nil_r_s.
  - destruct (contains "![" report) eqn:Hmark.
    + split; [|discriminate].
      exists report, "", "". unfold _enhance_report_with_images.
      rewrite Hmark. cbn. now rewrite !app_nil_r_s.
    + destruct (enhance_shape report (x :: imgs) dir ltac:(discriminate) Hmark)
        as (k & text & ->).
      split.
      * exists (take k report), (add_figures text 0 (x :: imgs)), (drop k report).
        split; [now rewrite take_drop | reflexivity].
      * intros _ img Himg. apply contains_app_r, contains_app_l.
        now apply add_figures_reference.
Qed.

Lemma ieq_hash (c : ascii) : ieq "#" c = Ascii.eqb "#" c.
Proof.
  destruct c as [[] [] [] [] [] [] [] []]; reflexivity.
Qed.

Lemma no_hash_head (c : ascii) (p : string) :
  contains "#" (String c p) = false ->
  ieq "#" c = false /\ contains "#" p = false.
Proof.
  cbn [contains startswith]. rewrite ieq_hash. intros H.
  apply orb_false_iff in H as [H1 H2].
  now rewrite andb_true_r in H1.
Qed.

(** A pattern that starts with [#] is not found before the first [#]. *)
Lemma search_skip (r' : regex) (pre s : string) (pos : nat) :
  contains "#" pre = false ->
  search_from (Cat (LitI "#") r') pos (pre ++ s)
  = search_from (Cat (LitI "#") r') (pos + String.length pre) s.
Proof.
  revert pos. induction pre as [|c p IH]; intros pos H.
  - cbn [append String.length]. now rewrite Nat.add_0_r.
  - apply no_hash_head in H as [Hc Hp].
    cbn [append search_from]. unfold match_at at 1. cbn [m LitI].
    change (Cat (Cat (Chr (ieq "#")) Eps) r') with (Cat (LitI "#") r').
    rewrite Hc, (IH (S pos) Hp). cbn [String.length]. f_equal. lia.
Qed.

Lemma search_no_hash (r' : regex) (s : string) (pos : nat) :
  contains "#" s = false ->
  search_from (Cat (LitI "#") r') pos s = None.
Proof.
  intros H. rewrite <- (app_nil_r_s s), (search_skip r' s "" pos H).
  reflexivity.
Qed.

(** X15: a report without any [#] and without an image reference gets
    the section "Data Visualization", with an entry for every image,
    appended at its end. *)
Theorem enhance_appends_section (report : string) (imgs : list string)
        (dir : string) :
  imgs <> [] ->
  contains "#" report = false ->
  contains "![" report = false ->
  _enhance_report_with_images report imgs dir
  = report
    ++ add_figures
         (chr nl ++ chr nl ++ "# Data Visualization" ++ chr nl ++ chr nl
          ++ "The following visualizations provide graphical representation of the key data points and patterns identified in the analysis:"
          ++ chr nl ++ chr nl)
         0 imgs.
Proof.
  intros Hne Hhash Hmark. unfold _enhance_report_with_images.
  destruct imgs as [|x imgs]; [contradiction|]. rewrite Hmark.
  unfold search, viz_section_pattern, conclusion_pattern.
  rewrite !(search_no_hash _ _ _ Hhash). reflexivity.
Qed.

(** X16: in a report whose first [#] opens the heading
    "# Data Visualization", the figures are put right after the word
    "Data", in front of " Visualization": the pattern tries [Data] first and
    stops there. *)
Theorem enhance_splits_heading (pre post : string) (imgs : list string)
        (dir : string) :
  imgs <> [] ->
  contains "#" pre = false ->
  contains "![" (pre ++ "# Data Visualization" ++ post) = false ->
  _enhance_report_with_images (pre ++ "# Data Visualization" ++ post) imgs dir
  = pre ++ "# Data" ++ add_figures (chr nl ++ chr nl) 0 imgs
    ++ " Visualization" ++ post.
Proof.
  intros Hne Hhash Hmark. unfold _enhance_report_with_images.
  destruct imgs as [|x imgs]; [contradiction|]. rewrite Hmark.
  unfold search, viz_section_pattern.
  rewrite (search_skip _ _ _ _ Hhash). cbn [Nat.add].
  assert (Hm : match_at
                 (Cat (LitI "#")
                    (Cat (StarG isspace)
                       (Alt (LitI "Data")
                          (Alt (LitI "Visualization")
                             (Cat (LitI "Data")
                                (Cat (PlusG isspace) (LitI "Visualization")))))))
                 ("# Data Visualization" ++ post)
               = Some (None, " Visualization" ++ post)) by reflexivity.
  assert (Hs : search_from
                 (Cat (LitI "#")
                    (Cat (StarG isspace)
                       (Alt (LitI "Data")
                          (Alt (LitI "Visualization")
                             (Cat (LitI "Data")
                                (Cat (PlusG isspace) (LitI "Visualization")))))))
                 (String.length pre) ("# Data Visualization" ++ post)
               = Some (String.length pre, String.length pre + 6)).
  { cbn [append search_from]. cbn [append] in Hm. rewrite Hm.
    do 2 f_equal. f_equal. cbn [String.length]. lia. }
  rewrite Hs.
  replace (pre ++ "# Data Visualization" ++ post)
    with ((pre ++ "# Data") ++ " Visualization" ++ post)
    by now rewrite app_assoc_s.
  replace (String.length pre + 6) with (String.length (pre ++ "# Data") + 0)
    by (rewrite length_app_s; cbn [String.length]; lia).
  rewrite take_app_more, drop_app_more. cbn [take drop].
  now rewrite app_nil_r_s, !app_assoc_s.
Qed.

(** X17: in a report that has no data or visualization heading and whose
    first [#] opens the heading "# Conclusion", the section
    "Data Visualization" is put right in front of that heading. *)
Theorem enhance_before_conclusion (pre post : string) (imgs : list string)
        (dir : string) :
  imgs <> [] ->
  contains "#" pre = false ->
  search viz_section_pattern (pre ++ "# Conclusion" ++ post) = None ->
  contains "![" (pre ++ "# Conclusion" ++ post) = false ->
  _enhance_report_with_images (pre ++ "# Conclusion" ++ post) imgs dir
  = pre
    ++ add_figures
         (chr nl ++ chr nl ++ "# Data Visualization" ++ chr nl ++ chr nl
          ++ "The following visualizations provide graphical representation of the key data points and patterns identified in the analysis:"
          ++ chr nl ++ chr nl)
         0 imgs
    ++ "# Conclusion" ++ post.
Proof.
  intros Hne Hhash Hviz Hmark. unfold _enhance_report_with_images.
  destruct imgs as [|x imgs]; [contradiction|]. rewrite Hmark, Hviz.
  unfold search, conclusion_pattern.
  rewrite (search_skip _ _ _ _ Hhash). cbn [Nat.add].
  assert (Hs : search_from
                 (Cat (LitI "#")
                    (Cat (StarG isspace)
                       (Alt (LitI "Conclusion") (LitI "Conclusions"))))
                 (String.length pre) ("# Conclusion" ++ post)
               = Some (String.length pre,
                       String.length pre
                       + (String.length ("# Conclusion" ++ post)
                          - String.length post))) by reflexivity.
  rewrite Hs.
  replace (String.length pre) with (String.length pre + 0) at 1 2 by lia.
  rewrite take_app_more, drop_app_more. cbn [take drop].
  now rewrite app_nil_r_s.
Qed.

(* ================================================================== *)
(** * The added theorems on concrete inputs *)

Lemma directories_untouched_witness :
  fs_isdir
    (fs (snd (execute_python_code Sample.platform Sample.py_raise_boom None
                Sample.w0)))
    (scratch_dir Sample.platform Sample.w0)
  = fs_isdir
      (fs (after (code_run Sample.platform Sample.py_raise_boom None
                    Sample.w0)))
      (scratch_dir Sample.platform Sample.w0).
Proof.
  exact (directories_untouched Sample.platform Sample.py_raise_boom None
           Sample.w0 eq_refl (scratch_dir Sample.platform Sample.w0)).
Defined.




Lemma figures_survive_exception_witness :
  fignums (snd (execute_python_code Sample2.platform
                  Sample2.py_figure_then_raise None Sample.w0))
  = fignums (after (code_run Sample2.platform Sample2.py_figure_then_raise
                      None Sample.w0)).
Proof.
  apply (figures_survive_exception Sample2.platform
           Sample2.py_figure_then_raise None Sample.w0 eq_refl
           (ValueError "boom")).
  reflexivity.
Defined.


Lemma memory_keeps_most_recent_witness :
  ChatMemory.messages (add_all three_messages (ChatMemory.init 2))
  = skipn (length three_messages - Z.to_nat 2) three_messages
  /\ length (ChatMemory.messages (add_all three_messages (ChatMemory.init 2)))
     = Nat.min (length three_messages) (Z.to_nat 2).
Proof. apply (memory_keeps_most_recent 2 three_messages). lia. Defined.

Lemma add_message_bounded_witness :
  let self := ChatMemory.mkMemory three_messages 2 in
  let m := ChatMemory.mkMessage ChatMemory.system "loaded" in
  (Z.of_nat (length (ChatMemory.messages (ChatMemory._add_message m self)))
   <= 2)%Z
  /\ (exists kept,
        ChatMemory.messages (ChatMemory._add_message m self) = kept ++ [m])%list
  /\ (exists dropped,
        three_messages ++ [m]
        = dropped ++ ChatMemory.messages (ChatMemory._add_message m self))%list.
Proof.
  apply (add_message_bounded
           (ChatMemory.mkMessage ChatMemory.system "loaded")
           (ChatMemory.mkMemory three_messages 2)).
  cbn. lia.
Defined.

Lemma zero_limit_keeps_everything_witness :
  ChatMemory.messages (add_all three_messages (ChatMemory.init 0))
  = ([] ++ three_messages)%list.
Proof.
  apply (zero_limit_keeps_everything three_messages (ChatMemory.init 0)).
  reflexivity.
Defined.

Lemma formatted_history_of_recent_witness :
  ChatMemory.get_formatted_history (Some 1%Z)
    (add_all three_messages (ChatMemory.init 2))
  = "User: thanks" ++ chr nl ++ chr nl.
Proof.
  exact (proj1 (formatted_history_of_recent 2 1 three_messages
                  ltac:(lia) ltac:(lia))).
Defined.

Lemma enhance_appends_section_witness :
  _enhance_report_with_images "Sales grew." ["/tmp/r/sales_plot.png"] "/tmp/r"
  = "Sales grew."
    ++ add_figures
         (chr nl ++ chr nl ++ "# Data Visualization" ++ chr nl ++ chr nl
          ++ "The following visualizations provide graphical representation of the key data points and patterns identified in the analysis:"
          ++ chr nl ++ chr nl)
         0 ["/tmp/r/sales_plot.png"].
Proof.
  apply (enhance_appends_section "Sales grew." ["/tmp/r/sales_plot.png"]
           "/tmp/r"); [discriminate | reflexivity | reflexivity].
Defined.

Lemma enhance_splits_heading_witness :
  _enhance_report_with_images
    (("Summary." ++ chr nl) ++ "# Data Visualization" ++ chr nl ++ "Charts.")
    ["/tmp/r/sales_plot.png"] "/tmp/r"
  = ("Summary." ++ chr nl) ++ "# Data"
    ++ add_figures (chr nl ++ chr nl) 0 ["/tmp/r/sales_plot.png"]
    ++ " Visualization" ++ chr nl ++ "Charts.".
Proof.
  apply (enhance_splits_heading ("Summary." ++ chr nl)
           (chr nl ++ "Charts.") ["/tmp/r/sales_plot.png"] "/tmp/r");
    [discriminate | reflexivity | reflexivity].
Defined.

Lemma enhance_before_conclusion_witness :
  _enhance_report_with_images
    (("Summary." ++ chr nl) ++ "# Conclusion" ++ chr nl ++ "Done.")
    ["/tmp/r/sales_plot.png"] "/tmp/r"
  = ("Summary." ++ chr nl)
    ++ add_figures
         (chr nl ++ chr nl ++ "# Data Visualization" ++ chr nl ++ chr nl
          ++ "The following visualizations provide graphical representation of the key data points and patterns identified in the analysis:"
          ++ chr nl ++ chr nl)
         0 ["/tmp/r/sales_plot.png"]
    ++ "# Conclusion" ++ chr nl ++ "Done.".
Proof.
  apply (enhance_before_conclusion ("Summary." ++ chr nl)
           (chr nl ++ "Done.") ["/tmp/r/sales_plot.png"] "/tmp/r");
    [discriminate | reflexivity | reflexivity | reflexivity].
Defined.

(** One entry, as it is written. *)
Lemma figure_entry_example :
  figure_entry 0 "/tmp/r/sales_plot.png"
  = "### Figure 1: sales plot" ++ chr nl ++ chr nl
    ++ "![sales_plot.png](sales_plot.png)" ++ chr nl ++ chr nl.
Proof. reflexivity. Qed.

(* ================================================================== *)
(** * Execution followed by discovery: the plot the call saved itself *)

Section MatchFacts.
Context {R : Type}.










End MatchFacts.
















Lemma enhance_keeps_report_witness :
  contains (image_reference "/tmp/r/sales_plot.png")
    (_enhance_report_with_images "# Summary" ["/tmp/r/sales_plot.png"]
       "/tmp/r") = true.
Proof.
  apply (proj2 (enhance_keeps_report "# Summary" ["/tmp/r/sales_plot.png"]
                  "/tmp/r") eq_refl "/tmp/r/sales_plot.png").
  left. reflexivity.
Defined.
